(** * IsolateJS: script execution and resource governance

    A shallow embedding of the Go sources [ijs_manager.go], [ijs_www.go],
    the shutdown/restart file and the configuration file, together with the
    properties of the size cap, the admission gate, the job queue, the
    running-scripts registry and the memory monitor.

    Conventions.
    - Go's [int], [int64], [uint64] are [Z]; wrap-around is written out
      where the code can reach it ([scriptCounter], [limitBytes]).
    - Go strings are byte strings: [string], with [String.length] for [len].
    - Go maps are [gmap]; a [*sobek.Runtime] is an address into a heap of
      runtimes, a [context.Context] is a context number.
    - Goroutines are sequentialised: every function takes the process state
      [Proc] and returns the next one; what another goroutine or the
      outside world decides (which [select] case fires, what the clock
      reads) is an explicit argument.
    - Calls that matter to the properties leave an [Event] in the trace of
      the process, in program order. *)

From Stdlib Require Import ZArith Ascii String List Lia.
From stdpp Require Import gmap strings list fin_maps pretty.

Local Open Scope string_scope.
Local Open Scope list_scope.
Local Open Scope Z_scope.

(** ** Go values and errors *)

(** What [value.Export()] can hand to the HTTP layer (an [interface{}]):
    [nil], booleans, integers, strings, and a float that [encoding/json]
    refuses ([NaN]). *)
Inductive GoValue :=
| GoNil
| GoBool (b : bool)
| GoInt (n : Z)
| GoString (s : string)
| GoNaN.

(** The three sentinel errors of [ijs_manager.go], and the error built by
    [fmt.Errorf("script execution failed: %w", err)], which is a fresh
    wrapper around the engine's error and equal to no sentinel. *)
Inductive error :=
| ErrScriptTimeout
| ErrScriptTooLarge
| ErrNoWorkerAvailable
| ErrExecutionFailed (engine_err : string).

Definition error_Error (e : error) : string :=
  match e with
  | ErrScriptTimeout => "script execution timed out"
  | ErrScriptTooLarge => "script size exceeds maximum limit"
  | ErrNoWorkerAvailable => "no worker available to process script"
  | ErrExecutionFailed d => "script execution failed: " +:+ d
  end.

#[global] Instance error_eq_dec : EqDecision error.
Proof. solve_decision. Defined.

#[global] Instance GoValue_eq_dec : EqDecision GoValue.
Proof. solve_decision. Defined.

(** ** The scripting engine, at its interface *)

Module sobek.

(** JavaScript values as far as the service distinguishes them. *)
Inductive Value :=
| Undefined
| Null
| Bool (b : bool)
| Int (n : Z)
| NaN
| Str (s : string)
| Object (addr : nat).


(** [value.Export()]. Objects are not followed. *)
Definition Export (v : Value) : GoValue :=
  match v with
  | Undefined | Null | Object _ => GoNil
  | Bool b => GoBool b
  | Int n => GoInt n
  | NaN => GoNaN
  | Str s => GoString s
  end.

(** A runtime: the properties of its global object and the pending
    interrupt, if any. *)
Record Runtime := MkRuntime {
  globals : gmap string Value;
  interrupt : option string;
}.

(** [vm.Set(name, nil)]: [ToValue(nil)] is [null]; the property [name]
    of the global object is overwritten or created. *)
Definition SetNil (name : string) (vm : Runtime) : Runtime :=
  {| globals := <[name := Null]> (globals vm); interrupt := interrupt vm |}.

(** [vm.Interrupt(reason)]. *)
Definition Interrupt (reason : string) (vm : Runtime) : Runtime :=
  {| globals := globals vm; interrupt := Some reason |}.

(** What a script sees when it reads the global binding [name]. *)
Definition lookup_global (name : string) (vm : Runtime) : Value :=
  default Undefined (globals vm !! name).

(** The engine itself is not part of the repository: it is taken through
    its interface. [New] is the runtime [sobek.New()] returns, with
    whatever the engine binds by default; [RunString] is the outcome of
    an evaluation on a runtime, a value or the text of the engine's
    error. On a runtime whose [interrupt] is set it is what the engine
    returns once the interrupt has been raised. *)
Class Engine := {
  New : Runtime;
  RunString : Runtime -> string -> Value + string;
}.

End sobek.

(** ** Configuration (the [Config] struct) *)

Record Config := MkConfig {
  MaxMemoryMB : Z;
  MaxScriptSize : Z;
  ServerPort : Z;
  ScriptTimeout : Z;
  WorkerPoolSize : Z;
  LogOnConsole : bool;
  ShutdownTimeLimit : Z;
  ShutdownPause : Z;
}.

(** The two checks of [initializeConfig]; a configuration that fails one
    aborts the process before anything else is built. *)
Definition config_valid (c : Config) : bool :=
  (1 <=? MaxMemoryMB c) && (2 <=? MaxScriptSize c).

(** ** Restricted globals *)

Definition restrictedGlobals : list string :=
  [ "eval"; "process"; "child_process"; "require"; "global"; "globalThis";
    "window"; "self"; "module"; "exports"; "__dirname"; "__filename";
    "XMLHttpRequest"; "fetch"; "WebSocket"; "Object.defineProperty";
    "Object.create"; "Proxy"; "exec"; "execSync"; "spawn"; "fs";
    "FileSystem"; "writeFile"; "readFile"; "Runtime.getRuntime";
    "setInterval"; "setTimeout"; "setImmediate"; "crypto"; "randomBytes";
    "document"; "alert"; "confirm"; "prompt" ].

(** ** The script manager *)

(** A buffered channel. Only the buffer is modelled: a send that finds a
    parked receiver is a send into the buffer followed by that receiver's
    receive, and the job queue has as many receivers as it has capacity,
    so an unbuffered queue has no receiver at all. *)
Record Chan (A : Type) := MkChan {
  chan_cap : nat;
  chan_buf : list A;
}.
Arguments MkChan {A} _ _.
Arguments chan_cap {A} _.
Arguments chan_buf {A} _.

(** [make(chan A, n)]; a negative size panics. *)
Definition make_chan {A} (n : Z) : option (Chan A) :=
  if n <? 0 then None else Some (MkChan (Z.to_nat n) []).

(** [select { case c <- x: ... default: ... }]: the send is taken when the
    buffer has room, otherwise the default case. *)
Definition try_send {A} (c : Chan A) (x : A) : option (Chan A) :=
  if (length (chan_buf c) <? chan_cap c)%nat
  then Some (MkChan (chan_cap c) (chan_buf c ++ [x]))
  else None.

Definition chan_full {A} (c : Chan A) : Prop :=
  (chan_cap c <= length (chan_buf c))%nat.

Record ScriptResult := MkScriptResult {
  Result : GoValue;
  Error : option error;
}.

Record ScriptJob := MkScriptJob {
  Script : string;
  ResultChan : nat;
}.

Record RunningScriptInfo := MkRunningScriptInfo {
  cancelFunc : option nat;
  vm : nat;
  script : string;
}.

Record ScriptManager := MkScriptManager {
  runningScripts : gmap string RunningScriptInfo;
  maxScriptSize : Z;
  jobQueue : Chan ScriptJob;
  workerSem : Chan unit;
  scriptCounter : Z;
  acceptingScript : Z;
}.

(** ** Events and the process state *)

(** [time.Duration] counts nanoseconds. *)
Definition Millisecond : Z := 1000000.
Definition Second : Z := 1000 * Millisecond.

Inductive Event :=
| EvNewVM (addr : nat)
| EvSet (addr : nat) (name : string)
| EvRunString (addr : nat) (js : string)
| EvInterrupt (addr : nat) (reason : string)
| EvCancel (ctx : nat)
| EvDelete (id : string)
| EvStoreAccepting (v : Z)
| EvSleep (d : Z)
| EvGC
| EvRestart
| EvServerShutdown (timeout : Z)
| EvSpawn
| EvExit (code : Z).

#[global] Instance Event_eq_dec : EqDecision Event.
Proof. solve_decision. Defined.

Record Proc := MkProc {
  scriptManager : ScriptManager;
  heap : gmap nat sobek.Runtime;
  nextAddr : nat;
  nextCtx : nat;
  nextChan : nat;
  cancelled : gset nat;
  trace : list Event;
}.

Definition with_sm (f : ScriptManager -> ScriptManager) (p : Proc) : Proc :=
  {| scriptManager := f (scriptManager p); heap := heap p;
     nextAddr := nextAddr p; nextCtx := nextCtx p; nextChan := nextChan p;
     cancelled := cancelled p; trace := trace p |}.

Definition with_heap (f : gmap nat sobek.Runtime -> gmap nat sobek.Runtime)
    (p : Proc) : Proc :=
  {| scriptManager := scriptManager p; heap := f (heap p);
     nextAddr := nextAddr p; nextCtx := nextCtx p; nextChan := nextChan p;
     cancelled := cancelled p; trace := trace p |}.

Definition emit (evs : list Event) (p : Proc) : Proc :=
  {| scriptManager := scriptManager p; heap := heap p;
     nextAddr := nextAddr p; nextCtx := nextCtx p; nextChan := nextChan p;
     cancelled := cancelled p; trace := trace p ++ evs |}.

Definition set_runningScripts (m : gmap string RunningScriptInfo)
    (s : ScriptManager) : ScriptManager :=
  {| runningScripts := m; maxScriptSize := maxScriptSize s;
     jobQueue := jobQueue s; workerSem := workerSem s;
     scriptCounter := scriptCounter s; acceptingScript := acceptingScript s |}.

Definition set_jobQueue (q : Chan ScriptJob) (s : ScriptManager) : ScriptManager :=
  {| runningScripts := runningScripts s; maxScriptSize := maxScriptSize s;
     jobQueue := q; workerSem := workerSem s;
     scriptCounter := scriptCounter s; acceptingScript := acceptingScript s |}.

Definition set_scriptCounter (n : Z) (s : ScriptManager) : ScriptManager :=
  {| runningScripts := runningScripts s; maxScriptSize := maxScriptSize s;
     jobQueue := jobQueue s; workerSem := workerSem s;
     scriptCounter := n; acceptingScript := acceptingScript s |}.

Definition set_acceptingScript (v : Z) (s : ScriptManager) : ScriptManager :=
  {| runningScripts := runningScripts s; maxScriptSize := maxScriptSize s;
     jobQueue := jobQueue s; workerSem := workerSem s;
     scriptCounter := scriptCounter s; acceptingScript := v |}.

(** [NewScriptManager]. The worker and monitor goroutines it starts are the
    functions [worker_iter] and [memoryMonitor] below. *)
Definition NewScriptManager (maxSize : Z) (workerCount : Z) : option ScriptManager :=
  match make_chan workerCount, make_chan workerCount with
  | Some q, Some sem =>
      Some {| runningScripts := ∅; maxScriptSize := maxSize;
              jobQueue := q; workerSem := sem;
              scriptCounter := 0; acceptingScript := 1 |}
  | _, _ => None
  end.

(** [initializeScriptManager]. *)
Definition initializeScriptManager (c : Config) : option ScriptManager :=
  NewScriptManager (MaxScriptSize c) (WorkerPoolSize c).

Definition GetAcceptingScript (p : Proc) : bool :=
  acceptingScript (scriptManager p) =? 1.

Definition setAcceptingScript (v : bool) (p : Proc) : Proc :=
  let n := if v then 1 else 0 in
  emit [EvStoreAccepting n] (with_sm (set_acceptingScript n) p).

(** ** [ExecuteScriptWithTimeout] *)

(** The function up to its [select]: either it has returned an error, or
    the job sits in the queue and the caller blocks on the job's result
    channel. *)
Inductive Submitted :=
| Returned (e : error)
| Waiting (job : ScriptJob).

Definition submit (js : string) (p : Proc) : Submitted * Proc :=
  let s := scriptManager p in
  if Z.of_nat (String.length js) >? maxScriptSize s then
    (Returned ErrScriptTooLarge, p)
  else
    let job := {| Script := js; ResultChan := nextChan p |} in
    let p1 :=
      {| scriptManager := scriptManager p; heap := heap p;
         nextAddr := nextAddr p; nextCtx := nextCtx p;
         nextChan := S (nextChan p);
         cancelled := cancelled p; trace := trace p |} in
    match try_send (jobQueue s) job with
    | Some q => (Waiting job, with_sm (set_jobQueue q) p1)
    | None => (Returned ErrNoWorkerAvailable, p1)
    end.

(** The rest of the function, from [result := <-resultChan]. *)
Definition deliver (r : ScriptResult) : GoValue * option error :=
  match Error r with
  | Some e => (GoNil, Some e)
  | None => (Result r, None)
  end.

(** The whole call; [reply] is what the worker sends on the job's result
    channel. *)
Definition ExecuteScriptWithTimeout (reply : ScriptResult) (js : string)
    (p : Proc) : (GoValue * option error) * Proc :=
  match submit js p with
  | (Returned e, p') => ((GoNil, Some e), p')
  | (Waiting _, p') => (deliver reply, p')
  end.

(** ** The running-scripts registry *)

#[global] Instance Runtime_inhabited : Inhabited sobek.Runtime :=
  populate (sobek.MkRuntime ∅ None).

(** [entry.vm.Interrupt(reason)] on the runtime at [addr]. *)
Definition vm_Interrupt (addr : nat) (reason : string) (p : Proc) : Proc :=
  emit [EvInterrupt addr reason]
    (with_heap (alter (sobek.Interrupt reason) addr) p).

(** Calling a [context.CancelFunc]. *)
Definition call_cancel (ctx : nat) (p : Proc) : Proc :=
  emit [EvCancel ctx]
    {| scriptManager := scriptManager p; heap := heap p;
       nextAddr := nextAddr p; nextCtx := nextCtx p; nextChan := nextChan p;
       cancelled := {[ctx]} ∪ cancelled p; trace := trace p |}.

(** [delete(sm.runningScripts, id)]. *)
Definition unregister (id : string) (p : Proc) : Proc :=
  emit [EvDelete id]
    (with_sm (fun s => set_runningScripts (delete id (runningScripts s)) s) p).

(** [sm.runningScripts[id] = info]. *)
Definition register (id : string) (info : RunningScriptInfo) (p : Proc) : Proc :=
  with_sm (fun s => set_runningScripts (<[id := info]> (runningScripts s)) s) p.

(** The body of the loop of [cancelAllScripts]. *)
Definition cancel_entry (p : Proc) (ie : string * RunningScriptInfo) : Proc :=
  let p1 := vm_Interrupt (vm ie.2) "Script cancelled" p in
  let p2 := match cancelFunc ie.2 with
            | Some c => call_cancel c p1
            | None => p1
            end in
  unregister ie.1 p2.

(** [cancelAllScripts]: the loop visits every entry the map holds when it
    starts (deleting the current entry during a [range] is allowed and
    skips nothing); the order of the visits is the map's. *)
Definition cancelAllScripts (p : Proc) : Proc :=
  foldl cancel_entry p (map_to_list (runningScripts (scriptManager p))).

(** [Stop]. *)
Definition Stop (p : Proc) : Proc := cancelAllScripts p.

(** ** The executor *)

(** Which case of the [select] at the end of [executeScript] fires: the
    evaluator's result, or the context (deadline or cancel function)
    while the evaluator is still running. *)
Inductive Select :=
| ResultFirst
| ContextDone.

(** An evaluation in flight: what the closure of the goroutine holds. *)
Record Evaluation := MkEvaluation {
  ev_vm : nat;
  ev_id : string;
  ev_js : string;
}.

(** What the goroutine sends on the result channel of [executeScript]. *)
Definition goroutine_result (r : sobek.Value + string) : ScriptResult :=
  match r with
  | inr err => {| Result := GoNil; Error := Some (ErrExecutionFailed err) |}
  | inl v => {| Result := sobek.Export v; Error := None |}
  end.

(** [for _, global := range restrictedGlobals { vm.Set(global, nil) }]. *)
Definition restrict (addr : nat) (p : Proc) : Proc :=
  foldl (fun q g => emit [EvSet addr g]
                      (with_heap (alter (sobek.SetNil g) addr) q))
        p restrictedGlobals.

(** [sobek.New()]. *)
Definition new_vm `{sobek.Engine} (p : Proc) : nat * Proc :=
  let addr := nextAddr p in
  (addr,
   emit [EvNewVM addr]
     {| scriptManager := scriptManager p;
        heap := <[addr := sobek.New]> (heap p);
        nextAddr := S addr; nextCtx := nextCtx p; nextChan := nextChan p;
        cancelled := cancelled p; trace := trace p |}).

(** [atomic.AddUint64(&sm.scriptCounter, 1)] *)
Definition next_counter (s : ScriptManager) : Z :=
  (scriptCounter s + 1) mod 2 ^ 64.

Definition script_id (n : Z) : string := "script-" +:+ pretty n.

(** [executeScript] up to the start of the goroutine: a fresh runtime is
    built and restricted, an id is drawn, the entry is registered. *)
Definition exec_start `{sobek.Engine} (js : string) (cancel : option nat)
    (p : Proc) : Evaluation * Proc :=
  let '(addr, p1) := new_vm p in
  let p2 := restrict addr p1 in
  let n := next_counter (scriptManager p2) in
  let id := script_id n in
  let p3 := with_sm (set_scriptCounter n) p2 in
  let p4 := register id {| cancelFunc := cancel; vm := addr; script := js |} p3 in
  ({| ev_vm := addr; ev_id := id; ev_js := js |}, emit [EvRunString addr js] p4).

(** The goroutine, from the return of [vm.RunString] to the end of its
    deferred function. *)
Definition evaluator_done `{sobek.Engine} (e : Evaluation) (p : Proc)
    : ScriptResult * Proc :=
  let r := sobek.RunString (heap p !!! ev_vm e) (ev_js e) in
  (goroutine_result r, unregister (ev_id e) p).

(** The [select] of [executeScript] and what follows it. With
    [ResultFirst] the evaluator has sent its result; with [ContextDone]
    the context is done first, the runtime is interrupted, and the result
    the evaluator then sends is returned. *)
Definition exec_finish `{sobek.Engine} (sel : Select) (e : Evaluation)
    (p : Proc) : ScriptResult * Proc :=
  match sel with
  | ResultFirst => evaluator_done e p
  | ContextDone =>
      evaluator_done e (vm_Interrupt (ev_vm e) "canceled by context" p)
  end.

Definition executeScript `{sobek.Engine} (sel : Select) (js : string)
    (cancel : option nat) (p : Proc) : ScriptResult * Proc :=
  let '(e, p1) := exec_start js cancel p in
  exec_finish sel e p1.

(** ** The worker *)

(** One iteration of [for job := range sm.jobQueue]: [None] when the queue
    is empty and the worker parks. The semaphore [workerSem] is taken and
    released around [executeScript]; with as many workers as slots it
    never blocks and is left as it was. *)
Definition worker_iter `{sobek.Engine} (sel : Select) (p : Proc)
    : option (ScriptJob * ScriptResult * Proc) :=
  let q := jobQueue (scriptManager p) in
  match chan_buf q with
  | [] => None
  | job :: rest =>
      let ctx := nextCtx p in
      let p1 :=
        {| scriptManager := set_jobQueue (MkChan (chan_cap q) rest) (scriptManager p);
           heap := heap p; nextAddr := nextAddr p; nextCtx := S ctx;
           nextChan := nextChan p; cancelled := cancelled p;
           trace := trace p |} in
      let '(res, p2) := executeScript sel (Script job) (Some ctx) p1 in
      Some (job, res, p2)
  end.

(** ** The HTTP adapter ([ijs_www.go]) *)

Module http.

Definition StatusOK : Z := 200.
Definition StatusBadRequest : Z := 400.
Definition StatusMethodNotAllowed : Z := 405.
Definition StatusInternalServerError : Z := 500.
Definition StatusServiceUnavailable : Z := 503.
Definition MethodPost : string := "POST".

(** A request: its method and its body, a stream of bytes that ends
    either cleanly or, when [BodyFails], with a read error after the
    bytes. *)
Record Request := MkRequest {
  Method : string;
  Body : string;
  BodyFails : bool;
}.

(** JSON, as far as the service writes it: scalar values, and an object
    as the list of its members in the order they are written. *)
Inductive JsonValue :=
| JNull
| JBool (b : bool)
| JNumber (n : Z)
| JString (s : string).

Definition JsonObject : Type := list (string * JsonValue).

(** One [Write] on the response: a line of text or a JSON document (each
    followed by a newline). *)
Inductive Chunk :=
| Text (s : string)
| JSON (obj : JsonObject).

(** A [ResponseWriter]: the header map, which the handler may still
    change; the status line and the copy of the header map that went on
    the wire with the first [WriteHeader]; the chunks written. *)
Record ResponseWriter := MkResponseWriter {
  Header : gmap string string;
  wroteHeader : option (Z * gmap string string);
  written : list Chunk;
}.

Definition fresh : ResponseWriter :=
  {| Header := ∅; wroteHeader := None; written := [] |}.

(** [w.Header().Set(k, v)]. *)
Definition Header_Set (k v : string) (w : ResponseWriter) : ResponseWriter :=
  {| Header := <[k := v]> (Header w); wroteHeader := wroteHeader w;
     written := written w |}.

Definition Header_Del (k : string) (w : ResponseWriter) : ResponseWriter :=
  {| Header := delete k (Header w); wroteHeader := wroteHeader w;
     written := written w |}.

(** [w.WriteHeader(code)]: the first call fixes status and headers, a
    later one is ignored. *)
Definition WriteHeader (code : Z) (w : ResponseWriter) : ResponseWriter :=
  match wroteHeader w with
  | Some _ => w
  | None => {| Header := Header w; wroteHeader := Some (code, Header w);
               written := written w |}
  end.

(** [w.Write]: an implicit [WriteHeader(200)] when none came before. *)
Definition Write (c : Chunk) (w : ResponseWriter) : ResponseWriter :=
  let w1 := WriteHeader StatusOK w in
  {| Header := Header w1; wroteHeader := wroteHeader w1;
     written := written w1 ++ [c] |}.

(** [http.Error(w, msg, code)]. *)
Definition Error (w : ResponseWriter) (msg : string) (code : Z) : ResponseWriter :=
  let w1 := Header_Del "Content-Length" w in
  let w2 := Header_Set "Content-Type" "text/plain; charset=utf-8" w1 in
  let w3 := Header_Set "X-Content-Type-Options" "nosniff" w2 in
  Write (Text msg) (WriteHeader code w3).

(** What the client receives once the handler has returned. *)
Definition sent_status (w : ResponseWriter) : Z :=
  match wroteHeader w with Some (c, _) => c | None => StatusOK end.

Definition sent_header (w : ResponseWriter) : gmap string string :=
  match wroteHeader w with Some (_, h) => h | None => Header w end.

End http.

Fixpoint string_take (n : nat) (s : string) : string :=
  match n, s with
  | S n', String c s' => String c (string_take n' s')
  | _, _ => EmptyString
  end.

(** [io.ReadAll(io.LimitReader(r.Body, n))]: at most [n] bytes are read
    and the rest of the body is left unread, without an error; a body that
    fails before [n] bytes were read gives the error. *)
Definition ReadAll_LimitReader (r : http.Request) (n : Z) : option string :=
  if n <=? 0 then Some EmptyString
  else if (Z.of_nat (String.length (http.Body r)) <? n) && http.BodyFails r
  then None
  else Some (string_take (Z.to_nat n) (http.Body r)).

Module www.

(** The [Response] struct; both fields carry [omitempty]. *)
Record Response := MkResponse {
  Result : GoValue;
  Error : string;
}.

(** [encoding/json] on a [GoValue]; [NaN] is an unsupported value. *)
Definition marshal_value (v : GoValue) : option http.JsonValue :=
  match v with
  | GoNil => Some http.JNull
  | GoBool b => Some (http.JBool b)
  | GoInt n => Some (http.JNumber n)
  | GoString s => Some (http.JString s)
  | GoNaN => None
  end.

(** [json.Marshal] of a [Response]: with [omitempty], a nil interface
    and an empty string are left out of the object. *)
Definition marshal (r : Response) : option http.JsonObject :=
  let result_field :=
    match Result r with
    | GoNil => Some []
    | v => (fun j => [("result", j)]) <$> marshal_value v
    end in
  let error_field :=
    if decide (Error r = "") then [] else [("error", http.JString (Error r))] in
  (fun fs => fs ++ error_field) <$> result_field.

(** [json.NewEncoder(w).Encode(response)]: when the value cannot be
    marshalled nothing is written (the error is logged). *)
Definition Encode (r : Response) (w : http.ResponseWriter) : http.ResponseWriter :=
  match marshal r with
  | Some j => http.Write (http.JSON j) w
  | None => w
  end.

End www.

Definition handleExecutionError (err : error) (w : http.ResponseWriter)
    : http.ResponseWriter :=
  match err with
  | ErrScriptTooLarge => http.WriteHeader http.StatusBadRequest w
  | ErrNoWorkerAvailable => http.WriteHeader http.StatusServiceUnavailable w
  | _ => http.WriteHeader http.StatusInternalServerError w
  end.

(** The handler from "Prepare response" on. *)
Definition handler_respond (res : GoValue * option error)
    (w : http.ResponseWriter) : http.ResponseWriter :=
  let '(response, w1) :=
    match res.2 with
    | Some execErr =>
        let w' := handleExecutionError execErr w in
        ({| www.Result := GoNil; www.Error := error_Error execErr |}, w')
    | None =>
        ({| www.Result := res.1; www.Error := "" |}, w)
    end in
  www.Encode response (http.Header_Set "Content-Type" "application/json" w1).

(** The function [handler] returns; [reply] is what the worker sends on
    the result channel if the job is queued. *)
Definition handler (reply : ScriptResult) (w : http.ResponseWriter)
    (r : http.Request) (p : Proc) : http.ResponseWriter * Proc :=
  if negb (String.eqb (http.Method r) http.MethodPost) then
    (http.Error w "Only POST requests are allowed" http.StatusMethodNotAllowed, p)
  else
    match ReadAll_LimitReader r (maxScriptSize (scriptManager p)) with
    | None =>
        (http.Error w "Failed to read request body" http.StatusBadRequest, p)
    | Some body =>
        if negb (GetAcceptingScript p) then
          (http.Error w "Currently not accepting script, please wait..."
             http.StatusMethodNotAllowed, p)
        else
          let '(res, p') := ExecuteScriptWithTimeout reply body p in
          (handler_respond res w, p')
    end.

(** The string the handler passes to [ExecuteScriptWithTimeout], when it
    gets that far. *)
Definition handler_script (r : http.Request) (p : Proc) : option string :=
  if negb (String.eqb (http.Method r) http.MethodPost) then None
  else
    match ReadAll_LimitReader r (maxScriptSize (scriptManager p)) with
    | None => None
    | Some body => if negb (GetAcceptingScript p) then None else Some body
    end.

(** A request served on its own: the handler runs until it blocks on the
    result channel, a worker takes the job from the queue and executes it,
    and the handler answers with what the worker sent. [None] when the job
    the worker takes is another one. *)
Definition serve `{sobek.Engine} (sel : Select) (w : http.ResponseWriter)
    (r : http.Request) (p : Proc) : option (http.ResponseWriter * Proc) :=
  match handler_script r p with
  | None => Some (handler (MkScriptResult GoNil None) w r p)
  | Some body =>
      match submit body p with
      | (Returned _, _) => Some (handler (MkScriptResult GoNil None) w r p)
      | (Waiting job, p1) =>
          match worker_iter sel p1 with
          | Some (job', res, p2) =>
              if decide (Script job' = Script job /\ ResultChan job' = ResultChan job)
              then Some ((handler res w r p).1, p2)
              else None
          | None => None
          end
      end
  end.

(** ** Shutdown and restart *)

(** An operation that may end the process. *)
Inductive Outcome (A : Type) :=
| Running (a : A) (p : Proc)
| Exited (p : Proc).
Arguments Running {A} _ _.
Arguments Exited {A} _.

(** What [restart] meets outside the process. *)
Inductive RestartEnv :=
| ShutdownFails
| ExecutableFails
| StartFails
| RestartSucceeds.

(** [handleGraceFullShutdown], from the arrival of the signal. *)
Definition handleGraceFullShutdown (c : Config) (p : Proc) : Proc :=
  let p1 := emit [EvServerShutdown (ShutdownTimeLimit c)] p in
  let p2 := cancelAllScripts p1 in
  emit [EvSleep (ShutdownPause c)] p2.

(** [restart(server, scriptManager)]: it returns an error when the server
    does not shut down in five seconds, when the executable is not found
    or when the new process does not start; otherwise the process exits. *)
Definition restart (env : RestartEnv) (p : Proc) : Outcome (option string) :=
  let p1 := emit [EvRestart; EvServerShutdown (5 * Second)] p in
  match env with
  | ShutdownFails =>
      Running (Some "failed to gracefully shutdown the server") p1
  | ExecutableFails => Running (Some "failed to find executable") (Stop p1)
  | StartFails => Running (Some "failed to restart application") (Stop p1)
  | RestartSucceeds => Exited (emit [EvSpawn; EvExit 0] (Stop p1))
  end.

(** ** The memory monitor *)

(** What one round of the monitor reads from outside: the heap in use
    ([memStats.Alloc], a [uint64]), the clock ([time.Now().Unix()]), and
    the fate of a restart, should one be tried. *)
Record Sample := MkSample {
  Alloc : Z;
  Now : Z;
  restartEnv : RestartEnv;
}.

(** [uint64(config.MaxMemoryMB) << 20]. *)
Definition limitBytes (c : Config) : Z :=
  ((MaxMemoryMB c mod 2 ^ 64) * 2 ^ 20) mod 2 ^ 64.

Definition over_limit (c : Config) (s : Sample) : bool :=
  Alloc s >? limitBytes c.

Definition resetMemoryUsage (p : Proc) : Proc :=
  setAcceptingScript true (emit [EvSleep (10 * Second)] p).

Definition enforceMemoryLimit (s : Sample) (overLimitStart : Z) (p : Proc)
    : Outcome Z :=
  let p1 := emit [EvGC] p in
  if overLimitStart =? 0 then Running (Now s) p1
  else if Now s - overLimitStart >? 60 then
    match restart (restartEnv s) p1 with
    | Running _ p2 => Running overLimitStart p2
    | Exited p2 => Exited p2
    end
  else Running overLimitStart p1.

(** One round of the loop of [memoryMonitor]; the result carries the next
    value of the local variable [overLimitStart]. *)
Definition memoryMonitor_iter (c : Config) (s : Sample) (overLimitStart : Z)
    (p : Proc) : Outcome Z :=
  let p0 := emit [EvSleep (100 * Millisecond)] p in
  if over_limit c s then
    let p1 :=
      if GetAcceptingScript p0
      then cancelAllScripts (setAcceptingScript false p0)
      else p0 in
    enforceMemoryLimit s overLimitStart p1
  else if negb (overLimitStart =? 0) then
    Running 0 (resetMemoryUsage p0)
  else Running overLimitStart p0.

(** [memoryMonitor] over the rounds for which samples are given. *)
Fixpoint memoryMonitor (c : Config) (samples : list Sample)
    (overLimitStart : Z) (p : Proc) : Outcome Z :=
  match samples with
  | [] => Running overLimitStart p
  | s :: rest =>
      match memoryMonitor_iter c s overLimitStart p with
      | Running o p' => memoryMonitor c rest o p'
      | Exited p' => Exited p'
      end
  end.

(** ** The process as a whole *)

(** The process after [main] has initialised it: the manager of
    [initializeScriptManager], nothing allocated, nothing logged. *)
Definition boot (c : Config) : option Proc :=
  (fun s => {| scriptManager := s; heap := ∅; nextAddr := O; nextCtx := O;
               nextChan := O; cancelled := ∅; trace := [] |})
    <$> initializeScriptManager c.

(** What can happen next in the process: a request is handled (up to the
    answer or to the wait on the result channel), a worker takes a job
    and executes it, the monitor makes a round, or a signal arrives and
    the process shuts down. *)
Inductive Action :=
| ARequest (reply : ScriptResult) (w : http.ResponseWriter) (r : http.Request)
| AWorker (sel : Select)
| AMonitor (s : Sample)
| ASignal.

(** The process, the monitor's local variable, and whether the process
    has exited. *)
Record System := MkSystem {
  proc : Proc;
  overLimitStart : Z;
  exited : bool;
}.

(** One action; [None] when the action cannot take place: a worker on an
    empty queue, anything after the process has exited. *)
Definition step `{sobek.Engine} (c : Config) (a : Action) (s : System)
    : option System :=
  if exited s then None
  else
    match a with
    | ARequest reply w r =>
        Some (MkSystem (handler reply w r (proc s)).2 (overLimitStart s) false)
    | AWorker sel =>
        match worker_iter sel (proc s) with
        | Some (_, _, p') => Some (MkSystem p' (overLimitStart s) false)
        | None => None
        end
    | AMonitor smp =>
        match memoryMonitor_iter c smp (overLimitStart s) (proc s) with
        | Running o p' => Some (MkSystem p' o false)
        | Exited p' => Some (MkSystem p' (overLimitStart s) true)
        end
    | ASignal =>
        Some (MkSystem (handleGraceFullShutdown c (proc s)) (overLimitStart s) true)
    end.

Definition boot_system (c : Config) : option System :=
  (fun p => MkSystem p 0 false) <$> boot c.

Fixpoint run `{sobek.Engine} (c : Config) (acts : list Action) (s : System)
    : option System :=
  match acts with
  | [] => Some s
  | a :: rest =>
      match step c a s with
      | Some s' => run c rest s'
      | None => None
      end
  end.

(** ** A small engine, for concrete runs *)

(** An engine with [fetch] and [eval] bound at start. On an interrupted
    runtime it fails with the reason given to [Interrupt]; otherwise the
    text [typeof fetch] evaluates to the type of the binding of [fetch],
    a decimal literal to its value and anything else to [undefined]. *)
Definition toy_typeof (v : sobek.Value) : string :=
  match v with
  | sobek.Undefined => "undefined"
  | sobek.Null | sobek.Object _ => "object"
  | sobek.Bool _ => "boolean"
  | sobek.Int _ | sobek.NaN => "number"
  | sobek.Str _ => "string"
  end.

Definition digit_of (ch : ascii) : option Z :=
  let n := Z.of_nat (nat_of_ascii ch) in
  if (48 <=? n) && (n <=? 57) then Some (n - 48) else None.

Fixpoint parse_decimal (acc : Z) (s : string) : option Z :=
  match s with
  | EmptyString => Some acc
  | String ch s' =>
      match digit_of ch with
      | Some d => parse_decimal (10 * acc + d) s'
      | None => None
      end
  end.

Definition toy_engine : sobek.Engine :=
  {| sobek.New :=
       sobek.MkRuntime
         (<["fetch" := sobek.Object 1]> (<["eval" := sobek.Object 2]> ∅)) None;
     sobek.RunString vm js :=
       match sobek.interrupt vm with
       | Some reason => inr reason
       | None =>
           if String.eqb js "typeof fetch"
           then inl (sobek.Str (toy_typeof (sobek.lookup_global "fetch" vm)))
           else match js, parse_decimal 0 js with
                | String _ _, Some n => inl (sobek.Int n)
                | _, _ => inl sobek.Undefined
                end
       end |}.

Definition toy_config : Config :=
  {| MaxMemoryMB := 1; MaxScriptSize := 4; ServerPort := 8080;
     ScriptTimeout := Second; WorkerPoolSize := 1; LogOnConsole := false;
     ShutdownTimeLimit := 5 * Second; ShutdownPause := Second |}.

Definition toy_proc : Proc :=
  {| scriptManager :=
       {| runningScripts := ∅; maxScriptSize := 4;
          jobQueue := MkChan 1 []; workerSem := MkChan 1 [];
          scriptCounter := 0; acceptingScript := 1 |};
     heap := ∅; nextAddr := O; nextCtx := O; nextChan := O;
     cancelled := ∅; trace := [] |}.

(** ** Notions used in the statements *)

(** Everything of the manager but the registry. *)
Definition same_but_registry (s s' : ScriptManager) : Prop :=
  maxScriptSize s' = maxScriptSize s /\
  jobQueue s' = jobQueue s /\
  workerSem s' = workerSem s /\
  scriptCounter s' = scriptCounter s /\
  acceptingScript s' = acceptingScript s.

(** The runtime after [vm.Set(g, nil)] for every [g] of a list. *)
Definition strip (l : list string) (rt : sobek.Runtime) : sobek.Runtime :=
  foldl (fun v g => sobek.SetNil g v) rt l.

(** One round of the loop of [restrict]. *)
Definition restrict_step (addr : nat) (q : Proc) (g : string) : Proc :=
  emit [EvSet addr g] (with_heap (alter (sobek.SetNil g) addr) q).

(** What the loop body leaves in the trace for one entry. *)
Definition cancel_events (ie : string * RunningScriptInfo) : list Event :=
  [EvInterrupt (vm ie.2) "Script cancelled"]
  ++ match cancelFunc ie.2 with Some c => [EvCancel c] | None => [] end
  ++ [EvDelete ie.1].

(** The runtime the evaluator works on: fresh and restricted, and
    interrupted when the context was done first. *)
Definition evaluated_runtime `{sobek.Engine} (sel : Select) : sobek.Runtime :=
  match sel with
  | ResultFirst => strip restrictedGlobals sobek.New
  | ContextDone =>
      sobek.Interrupt "canceled by context" (strip restrictedGlobals sobek.New)
  end.

(** What the [select] of [executeScript] leaves in the trace. *)
Definition select_events (sel : Select) (addr : nat) : list Event :=
  match sel with
  | ResultFirst => []
  | ContextDone => [EvInterrupt addr "canceled by context"]
  end.

(** The last state of the process, running or exited. *)
Definition outcome_proc {A} (o : Outcome A) : Proc :=
  match o with
  | Running _ p => p
  | Exited p => p
  end.

(** The round calls [restart]. *)
Definition escalates (c : Config) (s : Sample) (ols : Z) : bool :=
  over_limit c s && negb (ols =? 0) && (Now s - ols >? 60).

(** The events of the first stage: the gate is closed and every tracked
    script is cancelled. *)
Definition close_and_cancel_events (p : Proc) : list Event :=
  if GetAcceptingScript p
  then EvStoreAccepting 0
       :: concat (map cancel_events (map_to_list (runningScripts (scriptManager p))))
  else [].

(** The limits the manager is built with, and the bound on the queue. *)
Definition queue_inv (c : Config) (s : ScriptManager) : Prop :=
  maxScriptSize s = MaxScriptSize c /\
  Z.of_nat (chan_cap (jobQueue s)) = WorkerPoolSize c /\
  (length (chan_buf (jobQueue s)) <= chan_cap (jobQueue s))%nat.

(** [overLimitStart] was set by the round [smp0], when it was unset, and
    every round of the monitor since then found the heap over the limit. *)
Definition overage_since `{sobek.Engine} (c : Config) (s0 : System)
    (acts : list Action) (ols : Z) : Prop :=
  exists before smp0 between sb,
    acts = before ++ AMonitor smp0 :: between /\
    run c before s0 = Some sb /\
    overLimitStart sb = 0 /\
    over_limit c smp0 = true /\
    Now smp0 = ols /\
    forall m, AMonitor m ∈ between -> over_limit c m = true.

(** The events of the recovery path. *)
Definition recovery_events : list Event :=
  [EvSleep (100 * Millisecond); EvSleep (10 * Second); EvStoreAccepting 1].

(** The status [handleExecutionError] chooses. *)
Definition error_status (e : error) : Z :=
  match e with
  | ErrScriptTooLarge => http.StatusBadRequest
  | ErrNoWorkerAvailable => http.StatusServiceUnavailable
  | _ => http.StatusInternalServerError
  end.



(** ** Concrete inputs *)

(** The toy process just booted. *)
Definition toy_system : System := MkSystem toy_proc 0 false.

(** The state after a list of actions on the toy process (the toy process
    itself if the actions cannot take place). *)
Definition toy_after (acts : list Action) : System :=
  default toy_system (@run toy_engine toy_config acts toy_system).

(** A POST whose body is read without error. *)
Definition post (body : string) : http.Request :=
  http.MkRequest "POST" body false.

(** A reply for requests that never wait for one. *)
Definition no_reply : ScriptResult := MkScriptResult GoNil None.

(** Two evaluations in flight on the toy process. *)
Definition toy_two_running : Proc :=
  (@exec_start toy_engine "b" (Some 1%nat)
     (@exec_start toy_engine "a" (Some 0%nat) toy_proc).2).2.

(** Samples over and under the limit of the toy configuration (1 MiB). *)
Definition over_sample (now : Z) : Sample := MkSample (2 ^ 21) now ShutdownFails.
Definition under_sample (now : Z) : Sample := MkSample 0 now ShutdownFails.

(** ** Further parts of the sources *)

(** [limitedCPUs := max(1, totalCPUs/2)] of [initializeScriptManager];
    Go's division truncates towards zero. *)
Definition limitedCPUs (totalCPUs : Z) : Z := Z.max 1 (Z.quot totalCPUs 2).

(** [initializeConfig], from the result of [loadConfig] on: [None] stands
    for the fatal exits (the file could not be loaded, a limit is below
    its minimum). *)
Definition initializeConfig (loaded : option Config) : option Config :=
  match loaded with
  | None => None
  | Some cfg =>
      if MaxMemoryMB cfg <? 1 then None
      else if MaxScriptSize cfg <? 2 then None
      else Some cfg
  end.

(** The levels of logrus, and the [switch] of [ParseFlags] on the value of
    [-verbose]: the level chosen, and whether the value was reported as
    invalid. *)
Inductive Level :=
| PanicLevel
| FatalLevel
| ErrorLevel
| WarnLevel
| InfoLevel
| DebugLevel
| TraceLevel.

Definition ParseFlags_level (verboseFlag : string) : Level * bool :=
  if String.eqb verboseFlag "trace" then (TraceLevel, false)
  else if String.eqb verboseFlag "debug" then (DebugLevel, false)
  else if String.eqb verboseFlag "info" then (InfoLevel, false)
  else if String.eqb verboseFlag "warn" then (WarnLevel, false)
  else if String.eqb verboseFlag "error" then (ErrorLevel, false)
  else if String.eqb verboseFlag "fatal" then (FatalLevel, false)
  else if String.eqb verboseFlag "panic" then (PanicLevel, false)
  else (InfoLevel, true).

(** The case labels of that [switch]. *)
Definition level_flag (l : Level) : string :=
  match l with
  | TraceLevel => "trace"
  | DebugLevel => "debug"
  | InfoLevel => "info"
  | WarnLevel => "warn"
  | ErrorLevel => "error"
  | FatalLevel => "fatal"
  | PanicLevel => "panic"
  end.

(** The loop of [worker] over the jobs for which a [select] outcome is
    given: the jobs taken with their results, in the order they were
    taken; the loop stops when the queue is empty. *)
Fixpoint worker `{sobek.Engine} (sels : list Select) (p : Proc)
    : list (ScriptJob * ScriptResult) * Proc :=
  match sels with
  | [] => ([], p)
  | sel :: rest =>
      match worker_iter sel p with
      | None => ([], p)
      | Some (job, res, p') =>
          let '(served, p'') := worker rest p' in
          ((job, res) :: served, p'')
      end
  end.

(** The result a worker sends for a job, given the [select] outcome. *)
Definition job_result `{sobek.Engine} (job : ScriptJob) (sel : Select)
    : ScriptJob * ScriptResult :=
  (job, goroutine_result (sobek.RunString (evaluated_runtime sel) (Script job))).

(** The runtime an evaluation works on when [cancelAllScripts] ran while
    it was in flight. *)
Definition cancelled_runtime `{sobek.Engine} (sel : Select) : sobek.Runtime :=
  match sel with
  | ResultFirst =>
      sobek.Interrupt "Script cancelled" (strip restrictedGlobals sobek.New)
  | ContextDone =>
      sobek.Interrupt "canceled by context" (strip restrictedGlobals sobek.New)
  end.

(** The toy configuration without workers, and its process just booted. *)
Definition toy_config_no_workers : Config :=
  {| MaxMemoryMB := 1; MaxScriptSize := 4; ServerPort := 8080;
     ScriptTimeout := Second; WorkerPoolSize := 0; LogOnConsole := false;
     ShutdownTimeLimit := 5 * Second; ShutdownPause := Second |}.

Definition toy_system_no_workers : System :=
  MkSystem
    {| scriptManager :=
         {| runningScripts := ∅; maxScriptSize := 4;
            jobQueue := MkChan 0 []; workerSem := MkChan 0 [];
            scriptCounter := 0; acceptingScript := 1 |};
       heap := ∅; nextAddr := O; nextCtx := O; nextChan := O;
       cancelled := ∅; trace := [] |} 0 false.

(** * Properties *)

(** ** What each operation leaves alone *)

Lemma same_but_registry_refl s : same_but_registry s s.
Proof. by repeat split. Qed.

Lemma same_but_registry_trans s1 s2 s3 :
  same_but_registry s1 s2 -> same_but_registry s2 s3 -> same_but_registry s1 s3.
Proof.
  unfold same_but_registry. intros (?&?&?&?&?) (?&?&?&?&?).
  repeat split; congruence.
Qed.

Lemma cancel_entry_frame p ie :
  same_but_registry (scriptManager p) (scriptManager (cancel_entry p ie)).
Proof.
  unfold cancel_entry. destruct (cancelFunc ie.2); by repeat split.
Qed.

Lemma foldl_cancel_entry_frame l p :
  same_but_registry (scriptManager p) (scriptManager (foldl cancel_entry p l)).
Proof.
  revert p. induction l as [|ie l IH]; intros p; simpl.
  - apply same_but_registry_refl.
  - eapply same_but_registry_trans; [apply cancel_entry_frame | apply IH].
Qed.

Lemma cancelAllScripts_frame p :
  same_but_registry (scriptManager p) (scriptManager (cancelAllScripts p)).
Proof. apply foldl_cancel_entry_frame. Qed.

Lemma submit_gate js p :
  acceptingScript (scriptManager (submit js p).2) = acceptingScript (scriptManager p).
Proof.
  unfold submit, try_send.
  destruct (_ >? _); [done |].
  by destruct (_ <? _)%nat.
Qed.

Lemma ExecuteScriptWithTimeout_state reply js p :
  (ExecuteScriptWithTimeout reply js p).2 = (submit js p).2.
Proof.
  unfold ExecuteScriptWithTimeout. by destruct (submit js p) as [[e|job] p'].
Qed.

Lemma handler_state reply w r p :
  (handler reply w r p).2 = p \/
  exists body, handler_script r p = Some body /\
               (handler reply w r p).2 = (submit body p).2.
Proof.
  unfold handler, handler_script.
  destruct (negb _); [by left |].
  destruct (ReadAll_LimitReader _ _) as [body|]; [| by left].
  destruct (negb _); [by left |].
  right. exists body. split; [done |].
  rewrite <- ExecuteScriptWithTimeout_state with (reply := reply).
  by destruct (ExecuteScriptWithTimeout reply body p).
Qed.

Lemma handler_gate reply w r p :
  acceptingScript (scriptManager (handler reply w r p).2)
  = acceptingScript (scriptManager p).
Proof.
  destruct (handler_state reply w r p) as [-> | (body & _ & ->)].
  - done.
  - apply submit_gate.
Qed.

(** ** The capability strip *)

Lemma restrict_foldl addr p :
  restrict addr p = foldl (restrict_step addr) p restrictedGlobals.
Proof. reflexivity. Qed.

Lemma foldl_restrict_sm addr l p :
  scriptManager (foldl (restrict_step addr) p l) = scriptManager p.
Proof. revert p. induction l as [|g l IH]; intros p; simpl; [done | by rewrite IH]. Qed.

Lemma foldl_restrict_trace addr l p :
  trace (foldl (restrict_step addr) p l) = trace p ++ map (EvSet addr) l.
Proof.
  revert p. induction l as [|g l IH]; intros p; simpl.
  - by rewrite app_nil_r.
  - rewrite IH. simpl. by rewrite <- app_assoc.
Qed.

Lemma foldl_restrict_heap addr l p :
  heap (foldl (restrict_step addr) p l) !! addr = strip l <$> heap p !! addr.
Proof.
  revert p. induction l as [|g l IH]; intros p; simpl.
  - by destruct (heap p !! addr).
  - rewrite IH. simpl. rewrite lookup_alter_eq.
    by destruct (heap p !! addr).
Qed.



(** ** The executor, step by step *)

#[local] Opaque restrictedGlobals script_id next_counter.

Lemma exec_start_spec `{sobek.Engine} js cancel p :
  let addr := nextAddr p in
  let n := next_counter (scriptManager p) in
  let e := {| ev_vm := addr; ev_id := script_id n; ev_js := js |} in
  exists p',
    exec_start js cancel p = (e, p') /\
    heap p' !! addr = Some (strip restrictedGlobals sobek.New) /\
    runningScripts (scriptManager p')
      = <[script_id n := {| cancelFunc := cancel; vm := addr; script := js |}]>
          (runningScripts (scriptManager p)) /\
    maxScriptSize (scriptManager p') = maxScriptSize (scriptManager p) /\
    jobQueue (scriptManager p') = jobQueue (scriptManager p) /\
    acceptingScript (scriptManager p') = acceptingScript (scriptManager p) /\
    trace p'
      = trace p ++ [EvNewVM addr] ++ map (EvSet addr) restrictedGlobals
          ++ [EvRunString addr js].
Proof.
  intros addr n e. unfold exec_start, new_vm, restrict.
  fold (restrict_step (nextAddr p)). fold addr.
  generalize restrictedGlobals. intros l.
  set (p1 := emit _ _).
  assert (Hsm : scriptManager (foldl (restrict_step addr) p1 l) = scriptManager p)
    by (rewrite foldl_restrict_sm; reflexivity).
  assert (Hheap : heap (foldl (restrict_step addr) p1 l) !! addr
                  = Some (strip l sobek.New)).
  { rewrite foldl_restrict_heap. unfold p1. cbn [heap emit].
    by rewrite lookup_insert_eq. }
  assert (Htr : trace (foldl (restrict_step addr) p1 l)
                = trace p ++ [EvNewVM addr] ++ map (EvSet addr) l).
  { rewrite foldl_restrict_trace. unfold p1. cbn [trace emit].
    by rewrite <- app_assoc. }
  eexists. split; [by rewrite Hsm |].
  cbn [heap emit register with_sm scriptManager trace set_runningScripts
       set_scriptCounter runningScripts maxScriptSize jobQueue acceptingScript].
  rewrite Hheap, Htr, Hsm. repeat split; try done.
  by rewrite <- !app_assoc.
Qed.

Lemma evaluator_done_spec `{sobek.Engine} e p :
  evaluator_done e p
  = (goroutine_result (sobek.RunString (heap p !!! ev_vm e) (ev_js e)),
     unregister (ev_id e) p).
Proof. reflexivity. Qed.

Lemma exec_finish_frame `{sobek.Engine} sel e p :
  let p' := (exec_finish sel e p).2 in
  runningScripts (scriptManager p') = delete (ev_id e) (runningScripts (scriptManager p)) /\
  maxScriptSize (scriptManager p') = maxScriptSize (scriptManager p) /\
  jobQueue (scriptManager p') = jobQueue (scriptManager p) /\
  acceptingScript (scriptManager p') = acceptingScript (scriptManager p).
Proof. destruct sel; simpl; done. Qed.

Lemma executeScript_frame `{sobek.Engine} sel js cancel p :
  let p' := (executeScript sel js cancel p).2 in
  maxScriptSize (scriptManager p') = maxScriptSize (scriptManager p) /\
  jobQueue (scriptManager p') = jobQueue (scriptManager p) /\
  acceptingScript (scriptManager p') = acceptingScript (scriptManager p).
Proof.
  unfold executeScript.
  destruct (exec_start_spec js cancel p) as (p1 & -> & _ & _ & Hm & Hq & Ha & _).
  destruct (exec_finish_frame sel
              {| ev_vm := nextAddr p; ev_id := script_id (next_counter (scriptManager p));
                 ev_js := js |} p1) as (_ & Hm' & Hq' & Ha').
  simpl in *. repeat split; congruence.
Qed.

Lemma worker_iter_frame `{sobek.Engine} sel p job res p' :
  worker_iter sel p = Some (job, res, p') ->
  maxScriptSize (scriptManager p') = maxScriptSize (scriptManager p) /\
  chan_cap (jobQueue (scriptManager p')) = chan_cap (jobQueue (scriptManager p)) /\
  acceptingScript (scriptManager p') = acceptingScript (scriptManager p).
Proof.
  unfold worker_iter. destruct (chan_buf _) as [|j rest]; [done |].
  set (p1 := MkProc _ _ _ _ _ _ _).
  destruct (executeScript sel (Script j) (Some (nextCtx p)) p1) as [r p2] eqn:He.
  intros [= <- <- <-].
  pose proof (executeScript_frame sel (Script j) (Some (nextCtx p)) p1) as Hf.
  rewrite He in Hf. simpl in Hf. destruct Hf as (-> & -> & ->). done.
Qed.

(** ** [cancelAllScripts] *)

Lemma cancel_entry_trace p ie :
  trace (cancel_entry p ie) = trace p ++ cancel_events ie.
Proof.
  unfold cancel_entry, cancel_events.
  destruct (cancelFunc ie.2); cbn; by rewrite <- !app_assoc.
Qed.

Lemma foldl_cancel_trace l p :
  trace (foldl cancel_entry p l) = trace p ++ concat (map cancel_events l).
Proof.
  revert p. induction l as [|ie l IH]; intros p; cbn [foldl map concat].
  - by rewrite app_nil_r.
  - by rewrite IH, cancel_entry_trace, <- app_assoc.
Qed.

Lemma cancel_entry_registry p ie :
  runningScripts (scriptManager (cancel_entry p ie))
  = delete ie.1 (runningScripts (scriptManager p)).
Proof. unfold cancel_entry. by destruct (cancelFunc ie.2). Qed.

Lemma foldl_cancel_registry l p id :
  runningScripts (scriptManager (foldl cancel_entry p l)) !! id
  = if decide (id ∈ l.*1) then None else runningScripts (scriptManager p) !! id.
Proof.
  revert p. induction l as [|ie l IH]; intros p; cbn [foldl fmap list_fmap].
  - by rewrite decide_False by apply not_elem_of_nil.
  - rewrite IH, cancel_entry_registry.
    destruct (decide (id ∈ l.*1)) as [Hl | Hl].
    + rewrite decide_True; [done | by apply list_elem_of_further].
    + destruct (decide (id = ie.1)) as [-> | Hne].
      * rewrite decide_True by apply list_elem_of_here. apply lookup_delete_eq.
      * rewrite decide_False by (rewrite elem_of_cons; tauto).
        by apply lookup_delete_ne.
Qed.

Lemma cancel_entry_heap p ie :
  heap (cancel_entry p ie)
  = alter (sobek.Interrupt "Script cancelled") (vm ie.2) (heap p).
Proof. unfold cancel_entry. by destruct (cancelFunc ie.2). Qed.

Lemma Interrupt_idemp reason (o : option sobek.Runtime) :
  sobek.Interrupt reason <$> (sobek.Interrupt reason <$> o)
  = sobek.Interrupt reason <$> o.
Proof. by destruct o. Qed.

Lemma foldl_cancel_heap l p a :
  heap (foldl cancel_entry p l) !! a
  = if decide (a ∈ (vm ∘ snd) <$> l)
    then sobek.Interrupt "Script cancelled" <$> heap p !! a
    else heap p !! a.
Proof.
  revert p. induction l as [|ie l IH]; intros p; cbn [foldl fmap list_fmap].
  - by rewrite decide_False by apply not_elem_of_nil.
  - rewrite IH, cancel_entry_heap.
    destruct (decide (a = vm ie.2)) as [-> | Hne].
    + rewrite lookup_alter_eq.
      rewrite (decide_True (P := _ ∈ _ :: _)) by apply list_elem_of_here.
      destruct (decide _); [apply Interrupt_idemp | done].
    + rewrite lookup_alter_ne by done.
      destruct (decide (a ∈ (vm ∘ snd) <$> l)) as [Hl | Hl].
      * rewrite decide_True; [done | by apply list_elem_of_further].
      * rewrite decide_False; [done |]. rewrite elem_of_cons. tauto.
Qed.

Lemma cancel_entry_cancelled p ie c :
  c ∈ cancelled (cancel_entry p ie) <->
  c ∈ cancelled p \/ cancelFunc ie.2 = Some c.
Proof.
  unfold cancel_entry. destruct (cancelFunc ie.2) as [c'|]; cbn.
  - rewrite elem_of_union, elem_of_singleton.
    split; [intros [-> | ?]; auto | intros [? | [= ->]]; auto].
  - split; [auto | intros [? | ?]; [done | discriminate]].
Qed.

Lemma foldl_cancel_cancelled l p c :
  c ∈ cancelled (foldl cancel_entry p l) <->
  c ∈ cancelled p \/ exists ie, ie ∈ l /\ cancelFunc ie.2 = Some c.
Proof.
  revert p. induction l as [|ie l IH]; intros p; cbn [foldl].
  - split; [by left |]. intros [? | (ie & Hin & _)]; [done |].
    by apply elem_of_nil in Hin.
  - rewrite IH, cancel_entry_cancelled. split.
    + intros [[? | ?] | (ie' & Hin & ?)]; [by left | |].
      * right. exists ie. split; [apply list_elem_of_here | done].
      * right. exists ie'. split; [by apply list_elem_of_further | done].
    + intros [? | (ie' & Hin & ?)]; [by left; left |].
      apply elem_of_cons in Hin as [-> | Hin]; [by left; right |].
      right. by exists ie'.
Qed.

Lemma cancelAllScripts_registry p :
  runningScripts (scriptManager (cancelAllScripts p)) = ∅.
Proof.
  apply map_eq. intros id. unfold cancelAllScripts.
  rewrite foldl_cancel_registry, lookup_empty.
  destruct (decide _) as [_ | Hn]; [done |].
  destruct (runningScripts (scriptManager p) !! id) as [entry|] eqn:Hl; [| done].
  exfalso. apply Hn. apply list_elem_of_fmap.
  exists (id, entry). split; [done |]. by apply elem_of_map_to_list.
Qed.

Lemma cancelAllScripts_trace p :
  trace (cancelAllScripts p)
  = trace p
    ++ concat (map cancel_events (map_to_list (runningScripts (scriptManager p)))).
Proof. apply foldl_cancel_trace. Qed.

(** C8. [cancelAllScripts] leaves, for every entry the registry holds when
    it starts, an interrupt of the entry's runtime, the call of the
    entry's cancel function (when it has one) and the removal of the
    entry, in this order; the runtime is interrupted and the context
    cancelled; when it returns the registry is empty; removing an id
    again afterwards, as the evaluator's deferred function does, changes
    nothing. *)
Theorem cancelAllScripts_interrupts_and_empties `{sobek.Engine} (p : Proc) :
  let p' := cancelAllScripts p in
  (forall id entry,
      runningScripts (scriptManager p) !! id = Some entry ->
      (exists before after,
          trace p' = trace p ++ before ++ cancel_events (id, entry) ++ after) /\
      heap p' !! vm entry
        = sobek.Interrupt "Script cancelled" <$> heap p !! vm entry /\
      (forall c, cancelFunc entry = Some c -> c ∈ cancelled p')) /\
  runningScripts (scriptManager p') = ∅ /\
  (forall id,
      runningScripts (scriptManager (unregister id p'))
      = runningScripts (scriptManager p')) /\
  (forall sel e,
      runningScripts (scriptManager (exec_finish sel e p').2) = ∅).
Proof.
  intros p'. split; [| split; [| split]].
  - intros id entry Hin.
    assert (Hl : (id, entry) ∈ map_to_list (runningScripts (scriptManager p)))
      by by apply elem_of_map_to_list.
    split; [| split].
    + apply list_elem_of_split in Hl as (l1 & l2 & Hl).
      exists (concat (map cancel_events l1)), (concat (map cancel_events l2)).
      unfold p'. rewrite cancelAllScripts_trace, Hl.
      rewrite map_app, concat_app. cbn [map concat]. done.
    + unfold p', cancelAllScripts. rewrite foldl_cancel_heap.
      rewrite decide_True; [done |].
      apply list_elem_of_fmap. by exists (id, entry).
    + intros c Hc. unfold p', cancelAllScripts.
      apply foldl_cancel_cancelled. right. by exists (id, entry).
  - apply cancelAllScripts_registry.
  - intros id. unfold p'. cbn. rewrite cancelAllScripts_registry.
    apply delete_empty.
  - intros sel e.
    destruct (exec_finish_frame sel e p') as (-> & _).
    unfold p'. rewrite cancelAllScripts_registry. apply delete_empty.
Qed.

(** ** [executeScript] as a whole *)

Lemma executeScript_spec `{sobek.Engine} sel js cancel p :
  let addr := nextAddr p in
  let id := script_id (next_counter (scriptManager p)) in
  exists p',
    executeScript sel js cancel p
    = (goroutine_result (sobek.RunString (evaluated_runtime sel) js), p') /\
    trace p'
    = trace p ++ [EvNewVM addr] ++ map (EvSet addr) restrictedGlobals
        ++ [EvRunString addr js] ++ select_events sel addr ++ [EvDelete id] /\
    runningScripts (scriptManager p')
    = delete id (<[id := {| cancelFunc := cancel; vm := addr; script := js |}]>
                   (runningScripts (scriptManager p))).
Proof.
  intros addr id. unfold executeScript.
  destruct (exec_start_spec js cancel p) as (p1 & -> & Hh & Hr & _ & _ & _ & Ht).
  fold addr in Hh, Ht. fold id in Hr.
  destruct sel; unfold exec_finish; rewrite evaluator_done_spec;
    cbn [ev_vm ev_js ev_id]; fold addr id.
  - eexists. split; [| split].
    + rewrite lookup_total_alt, Hh. reflexivity.
    + cbn [trace unregister emit with_sm]. rewrite Ht.
      cbn [select_events]. by rewrite <- !app_assoc.
    + cbn. by rewrite Hr.
  - eexists. split; [| split].
    + rewrite lookup_total_alt. cbn [heap vm_Interrupt emit with_heap].
      rewrite lookup_alter_eq, Hh. reflexivity.
    + cbn [trace unregister emit with_sm vm_Interrupt with_heap]. rewrite Ht.
      cbn [select_events]. by rewrite <- !app_assoc.
    + cbn. by rewrite Hr.
Qed.


(** C2, as the code has it. When the context is done before the evaluator
    has sent a result, [executeScript] interrupts the runtime and then
    returns what the evaluator sends: the engine's failure wrapped as
    "script execution failed: ...", or a value. It is never
    [ErrScriptTimeout], for any engine, script and state. *)
Theorem executeScript_context_done_returns_evaluator_result `{sobek.Engine}
    (js : string) (cancel : option nat) (p : Proc) :
  let addr := nextAddr p in
  let out := executeScript ContextDone js cancel p in
  (exists t,
      trace out.2
      = trace p ++ t ++ [EvRunString addr js]
          ++ [EvInterrupt addr "canceled by context"]
          ++ [EvDelete (script_id (next_counter (scriptManager p)))]) /\
  out.1
    = goroutine_result
        (sobek.RunString
           (sobek.Interrupt "canceled by context"
              (strip restrictedGlobals sobek.New)) js) /\
  Error out.1 <> Some ErrScriptTimeout /\
  (forall e, Error out.1 = Some e ->
             exists detail, e = ErrExecutionFailed detail).
Proof.
  intros addr out. unfold out.
  destruct (executeScript_spec ContextDone js cancel p) as (p' & -> & Ht & _).
  cbn [fst snd]. split; [| split; [done |]].
  - exists ([EvNewVM addr] ++ map (EvSet addr) restrictedGlobals).
    rewrite Ht. fold addr. cbn [select_events]. by rewrite <- !app_assoc.
  - cbn [evaluated_runtime].
    destruct (sobek.RunString _ js) as [v | err]; cbn; split; try done.
    intros e [= <-]. by eexists.
Qed.

(** ** The size cap on the HTTP path *)

Lemma length_string_take n s :
  String.length (string_take n s) = Nat.min n (String.length s).
Proof.
  revert s. induction n as [|n IH]; intros [|c s]; cbn; try done.
  by rewrite IH.
Qed.

Lemma handler_unfold reply w r p :
  handler reply w r p
  = match handler_script r p with
    | Some body =>
        (handler_respond (ExecuteScriptWithTimeout reply body p).1 w,
         (ExecuteScriptWithTimeout reply body p).2)
    | None => ((handler reply w r p).1, p)
    end.
Proof.
  unfold handler, handler_script.
  destruct (negb _); [done |].
  destruct (ReadAll_LimitReader _ _) as [body|]; [| done].
  destruct (negb _); [done |].
  by destruct (ExecuteScriptWithTimeout reply body p).
Qed.

Lemma handler_script_body r p body :
  handler_script r p = Some body ->
  http.Method r = http.MethodPost /\
  GetAcceptingScript p = true /\
  ReadAll_LimitReader r (maxScriptSize (scriptManager p)) = Some body.
Proof.
  unfold handler_script.
  destruct (String.eqb_spec (http.Method r) http.MethodPost) as [-> | _];
    cbn [negb]; [| done].
  destruct (ReadAll_LimitReader _ _) as [b|]; [| done].
  destruct (GetAcceptingScript p); cbn [negb]; [| done].
  by intros [= ->].
Qed.

Lemma ReadAll_LimitReader_length r n body :
  0 <= n ->
  ReadAll_LimitReader r n = Some body ->
  body = string_take (Z.to_nat n) (http.Body r) /\
  Z.of_nat (String.length body) <= n.
Proof.
  intros Hn. unfold ReadAll_LimitReader.
  destruct (Z.leb_spec n 0) as [H0 | H0].
  - intros [= <-]. assert (n = 0) as -> by lia. by split.
  - destruct (_ && _); [done |]. intros [= <-]. split; [done |].
    rewrite length_string_take. lia.
Qed.

(** With the gate closed, a POST whose body could be read is answered
    with the status of the method check, and nothing else happens. *)
Lemma handler_gate_closed reply w r p body :
  http.Method r = http.MethodPost ->
  ReadAll_LimitReader r (maxScriptSize (scriptManager p)) = Some body ->
  GetAcceptingScript p = false ->
  handler reply w r p
  = (http.Error w "Currently not accepting script, please wait..."
       http.StatusMethodNotAllowed, p).
Proof.
  intros Hm Hr Hg. unfold handler.
  rewrite Hm, String.eqb_refl, Hr, Hg. reflexivity.
Qed.

(** C5. With a size limit that is not negative (a configuration the
    process starts with has it at least 2), the string the handler gives
    to [ExecuteScriptWithTimeout] is the first [maxScriptSize] bytes of
    the body; it is never longer than the limit, so the call never returns
    [ErrScriptTooLarge]; the job that is queued carries that prefix. *)
Theorem handler_submits_truncated_body
    (reply : ScriptResult) (w : http.ResponseWriter) (r : http.Request)
    (p : Proc) (body : string)
    (Hmax : 0 <= maxScriptSize (scriptManager p))
    (Hbody : handler_script r p = Some body) :
  handler reply w r p
    = (handler_respond (ExecuteScriptWithTimeout reply body p).1 w,
       (ExecuteScriptWithTimeout reply body p).2) /\
  body = string_take (Z.to_nat (maxScriptSize (scriptManager p))) (http.Body r) /\
  Z.of_nat (String.length body) <= maxScriptSize (scriptManager p) /\
  (submit body p).1 <> Returned ErrScriptTooLarge /\
  (forall job, (submit body p).1 = Waiting job -> Script job = body).
Proof.
  split; [by rewrite handler_unfold, Hbody |].
  apply handler_script_body in Hbody as (_ & _ & Hread).
  apply ReadAll_LimitReader_length in Hread as [Heq Hlen]; [| done].
  split; [done |]. split; [done |].
  unfold submit, try_send.
  destruct (Z.gtb_spec (Z.of_nat (String.length body))
              (maxScriptSize (scriptManager p))) as [Hgt | _]; [lia |].
  destruct (_ <? _)%nat; cbn; split; try done.
  by intros job [= <-].
Qed.

(** ** One round of the memory monitor *)

Lemma restart_frame env p :
  same_but_registry (scriptManager p) (scriptManager (outcome_proc (restart env p))).
Proof.
  unfold restart, Stop.
  destruct env; cbn [outcome_proc]; try apply same_but_registry_refl;
    apply (cancelAllScripts_frame (emit _ p)).
Qed.

Lemma restart_registry env p :
  runningScripts (scriptManager p) = ∅ ->
  runningScripts (scriptManager (outcome_proc (restart env p))) = ∅.
Proof.
  intros Hp. unfold restart, Stop.
  destruct env; cbn [outcome_proc]; try done;
    apply (cancelAllScripts_registry (emit _ p)).
Qed.

Lemma restart_trace env p :
  exists evs, trace (outcome_proc (restart env p)) = trace p ++ EvRestart :: evs.
Proof.
  unfold restart, Stop.
  destruct env; cbn [outcome_proc emit trace];
    rewrite ?cancelAllScripts_trace; cbn [emit trace];
    rewrite <- ?app_assoc; cbn [app]; by eexists.
Qed.

Lemma enforceMemoryLimit_frame s ols p :
  same_but_registry (scriptManager p)
    (scriptManager (outcome_proc (enforceMemoryLimit s ols p))).
Proof.
  unfold enforceMemoryLimit.
  destruct (ols =? 0); [apply same_but_registry_refl |].
  destruct (_ >? _); [| apply same_but_registry_refl].
  pose proof (restart_frame (restartEnv s) (emit [EvGC] p)) as Hf.
  by destruct (restart _ _).
Qed.

Lemma enforceMemoryLimit_registry s ols p :
  runningScripts (scriptManager p) = ∅ ->
  runningScripts (scriptManager (outcome_proc (enforceMemoryLimit s ols p))) = ∅.
Proof.
  intros Hp. unfold enforceMemoryLimit.
  destruct (ols =? 0); [done |].
  destruct (_ >? _); [| done].
  pose proof (restart_registry (restartEnv s) (emit [EvGC] p) Hp) as Hf.
  by destruct (restart _ _).
Qed.

(** The next value of [overLimitStart], when the process goes on. *)
Lemma enforceMemoryLimit_next s ols p o p' :
  enforceMemoryLimit s ols p = Running o p' ->
  o = if ols =? 0 then Now s else ols.
Proof.
  unfold enforceMemoryLimit.
  destruct (ols =? 0); [by intros [= <- _] |].
  destruct (_ >? _); [| by intros [= <- _]].
  destruct (restart _ _); [by intros [= <- _] | done].
Qed.

Lemma enforceMemoryLimit_trace s ols p :
  exists evs,
    trace (outcome_proc (enforceMemoryLimit s ols p)) = trace p ++ EvGC :: evs /\
    (EvRestart ∈ evs <-> negb (ols =? 0) && (Now s - ols >? 60) = true).
Proof.
  unfold enforceMemoryLimit.
  destruct (ols =? 0); cbn [negb andb outcome_proc emit trace].
  - exists []. split; [done |]. split; [by intros ?%elem_of_nil | done].
  - destruct (_ >? _); cbn [outcome_proc emit trace].
    + destruct (restart_trace (restartEnv s) (emit [EvGC] p)) as (evs & Ht).
      exists (EvRestart :: evs). split.
      * destruct (restart _ _); cbn [outcome_proc] in *;
          rewrite Ht; cbn; by rewrite <- app_assoc.
      * split; [done |]. intros _. apply list_elem_of_here.
    + exists []. split; [done |]. split; [by intros ?%elem_of_nil | done].
Qed.


Lemma memoryMonitor_iter_over c s ols p :
  over_limit c s = true ->
  let p' := outcome_proc (memoryMonitor_iter c s ols p) in
  GetAcceptingScript p' = false /\
  (GetAcceptingScript p = true -> runningScripts (scriptManager p') = ∅) /\
  maxScriptSize (scriptManager p') = maxScriptSize (scriptManager p) /\
  jobQueue (scriptManager p') = jobQueue (scriptManager p) /\
  exists evs,
    trace p'
    = trace p ++ [EvSleep (100 * Millisecond)] ++ close_and_cancel_events p
        ++ EvGC :: evs /\
    (EvRestart ∈ evs <-> negb (ols =? 0) && (Now s - ols >? 60) = true).
Proof.
  intros Hover p'. unfold p', memoryMonitor_iter. rewrite Hover.
  set (p0 := emit [EvSleep (100 * Millisecond)] p).
  set (p1 := if GetAcceptingScript p0 then _ else _).
  assert (Hg : GetAcceptingScript p0 = GetAcceptingScript p) by done.
  destruct (enforceMemoryLimit_frame s ols p1) as (Hm & Hq & _ & _ & Ha).
  destruct (enforceMemoryLimit_trace s ols p1) as (evs & Ht & Hr).
  assert (H1 : acceptingScript (scriptManager p1) <> 1 /\
               maxScriptSize (scriptManager p1) = maxScriptSize (scriptManager p) /\
               jobQueue (scriptManager p1) = jobQueue (scriptManager p) /\
               (GetAcceptingScript p = true ->
                runningScripts (scriptManager p1) = ∅) /\
               trace p1 = trace p ++ [EvSleep (100 * Millisecond)]
                            ++ close_and_cancel_events p).
  { unfold p1, close_and_cancel_events. rewrite Hg.
    destruct (GetAcceptingScript p) eqn:Hacc.
    - destruct (cancelAllScripts_frame (setAcceptingScript false p0))
        as (Hm1 & Hq1 & _ & _ & Ha1).
      rewrite Ha1, Hm1, Hq1, cancelAllScripts_registry, cancelAllScripts_trace.
      cbn. repeat split; try done. by rewrite <- !app_assoc.
    - unfold GetAcceptingScript in Hacc. apply Z.eqb_neq in Hacc.
      cbn. by repeat split. }
  destruct H1 as (Hne & Hm1 & Hq1 & Hreg & Ht1).
  split; [| split; [| split; [| split]]].
  - unfold GetAcceptingScript. rewrite Ha. by apply Z.eqb_neq.
  - intros Hacc. apply enforceMemoryLimit_registry. auto.
  - congruence.
  - congruence.
  - exists evs. split; [| done]. rewrite Ht, Ht1. by rewrite <- !app_assoc.
Qed.

Lemma memoryMonitor_iter_under c s ols p :
  over_limit c s = false ->
  memoryMonitor_iter c s ols p
  = if negb (ols =? 0)
    then Running 0 (resetMemoryUsage (emit [EvSleep (100 * Millisecond)] p))
    else Running ols (emit [EvSleep (100 * Millisecond)] p).
Proof. intros Hu. unfold memoryMonitor_iter. by rewrite Hu. Qed.

Lemma memoryMonitor_iter_next c s ols p o p' :
  memoryMonitor_iter c s ols p = Running o p' ->
  o = if over_limit c s then (if ols =? 0 then Now s else ols) else 0.
Proof.
  unfold memoryMonitor_iter. destruct (over_limit c s).
  - apply enforceMemoryLimit_next.
  - destruct (Z.eqb_spec ols 0) as [-> | _]; cbn [negb]; by intros [= <- _].
Qed.

(** Without wrap-around the limit is [MaxMemoryMB] mebibytes. *)
Lemma limitBytes_no_wrap c :
  0 <= MaxMemoryMB c < 2 ^ 44 -> limitBytes c = MaxMemoryMB c * 2 ^ 20.
Proof.
  intros Hr. unfold limitBytes.
  rewrite (Z.mod_small (MaxMemoryMB c)) by lia.
  apply Z.mod_small. lia.
Qed.

(** ** Invariants of a run *)

Lemma queue_inv_same_queue c s s' :
  maxScriptSize s' = maxScriptSize s ->
  jobQueue s' = jobQueue s ->
  queue_inv c s -> queue_inv c s'.
Proof. unfold queue_inv. intros -> ->. done. Qed.

Lemma boot_queue_inv c p :
  boot c = Some p -> queue_inv c (scriptManager p).
Proof.
  unfold boot, initializeScriptManager, NewScriptManager, make_chan.
  destruct (Z.ltb_spec (WorkerPoolSize c) 0) as [Hneg | Hpos]; [done |].
  cbn. intros [= <-]. unfold queue_inv. cbn. repeat split; lia.
Qed.

Lemma submit_queue_inv c js p :
  queue_inv c (scriptManager p) -> queue_inv c (scriptManager (submit js p).2).
Proof.
  unfold queue_inv, submit, try_send. intros (Hm & Hc & Hl).
  destruct (_ >? _); [done |].
  destruct (Nat.ltb_spec (length (chan_buf (jobQueue (scriptManager p))))
              (chan_cap (jobQueue (scriptManager p)))) as [Hlt | Hge]; cbn.
  - repeat split; try done. rewrite length_app. cbn. lia.
  - done.
Qed.

Lemma worker_iter_queue_inv `{sobek.Engine} c sel p job res p' :
  worker_iter sel p = Some (job, res, p') ->
  queue_inv c (scriptManager p) -> queue_inv c (scriptManager p').
Proof.
  unfold worker_iter, queue_inv.
  destruct (chan_buf (jobQueue (scriptManager p))) as [|j rest] eqn:Hbuf; [done |].
  set (p1 := MkProc _ _ _ _ _ _ _).
  destruct (executeScript sel (Script j) (Some (nextCtx p)) p1) as [r p2] eqn:He.
  intros [= <- <- <-] (Hm & Hc & Hl).
  pose proof (executeScript_frame sel (Script j) (Some (nextCtx p)) p1) as Hf.
  rewrite He in Hf. cbn [snd] in Hf. destruct Hf as (-> & -> & _).
  cbn in *. repeat split; try done. lia.
Qed.

Lemma handleGraceFullShutdown_frame c p :
  same_but_registry (scriptManager p) (scriptManager (handleGraceFullShutdown c p)).
Proof.
  unfold handleGraceFullShutdown.
  apply (cancelAllScripts_frame (emit _ p)).
Qed.

Lemma step_queue_inv `{sobek.Engine} c a s s' :
  step c a s = Some s' ->
  queue_inv c (scriptManager (proc s)) -> queue_inv c (scriptManager (proc s')).
Proof.
  unfold step. destruct (exited s); [done |].
  destruct a as [reply w r | sel | smp |].
  - intros [= <-] Hinv. cbn [proc].
    destruct (handler_state reply w r (proc s)) as [-> | (body & _ & ->)];
      [done | by apply submit_queue_inv].
  - destruct (worker_iter sel (proc s)) as [[[job res] p']|] eqn:Hw; [| done].
    intros [= <-]. cbn [proc]. by eapply worker_iter_queue_inv.
  - intros Hs Hinv.
    assert (Hp : proc s'
                 = outcome_proc (memoryMonitor_iter c smp (overLimitStart s) (proc s))).
    { destruct (memoryMonitor_iter _ _ _ _); by injection Hs as <-. }
    rewrite Hp. clear Hs Hp.
    destruct (over_limit c smp) eqn:Ho.
    + destruct (memoryMonitor_iter_over c smp (overLimitStart s) (proc s) Ho)
        as (_ & _ & Hm & Hq & _).
      by eapply queue_inv_same_queue.
    + rewrite memoryMonitor_iter_under by done. by destruct (negb _).
  - intros [= <-] Hinv. cbn [proc].
    destruct (handleGraceFullShutdown_frame c (proc s)) as (Hm & Hq & _).
    by eapply queue_inv_same_queue.
Qed.

Lemma run_queue_inv `{sobek.Engine} c acts s s' :
  run c acts s = Some s' ->
  queue_inv c (scriptManager (proc s)) -> queue_inv c (scriptManager (proc s')).
Proof.
  revert s. induction acts as [|a acts IH]; intros s; cbn [run].
  - by intros [= <-].
  - destruct (step c a s) as [s1|] eqn:Hs; [| done].
    intros Hr Hinv. eapply IH; [done |]. by eapply step_queue_inv.
Qed.

Lemma boot_system_spec c s0 :
  boot_system c = Some s0 ->
  boot c = Some (proc s0) /\ overLimitStart s0 = 0 /\ exited s0 = false.
Proof.
  unfold boot_system. destruct (boot c) as [p|]; [| done].
  by intros [= <-].
Qed.

(** A configuration that passed [initializeConfig] gives a manager whose
    size limit is at least 2, for as long as the process runs. *)
Lemma valid_config_size_limit `{sobek.Engine} c s0 acts s :
  config_valid c = true ->
  boot_system c = Some s0 ->
  run c acts s0 = Some s ->
  2 <= maxScriptSize (scriptManager (proc s)).
Proof.
  intros Hv (Hb & _ & _)%boot_system_spec Hrun.
  apply boot_queue_inv in Hb.
  destruct (run_queue_inv c acts s0 s Hrun Hb) as (-> & _ & _).
  unfold config_valid in Hv. apply andb_true_iff in Hv as [_ Hv].
  by apply Z.leb_le.
Qed.

Lemma submit_full js p :
  chan_full (jobQueue (scriptManager p)) ->
  Z.of_nat (String.length js) <= maxScriptSize (scriptManager p) ->
  exists p',
    submit js p = (Returned ErrNoWorkerAvailable, p') /\
    scriptManager p' = scriptManager p /\
    heap p' = heap p /\ trace p' = trace p.
Proof.
  unfold chan_full, submit, try_send. intros Hfull Hsize.
  destruct (Z.gtb_spec (Z.of_nat (String.length js))
              (maxScriptSize (scriptManager p))) as [Hgt | _]; [lia |].
  destruct (Nat.ltb_spec (length (chan_buf (jobQueue (scriptManager p))))
              (chan_cap (jobQueue (scriptManager p)))) as [Hlt | _]; [lia |].
  by eexists.
Qed.

(** C7. In every state the process reaches, the job queue has the capacity
    [WorkerPoolSize] and holds that many jobs when it is full; a call of
    [ExecuteScriptWithTimeout] (with a script that passes the size check)
    made then returns [ErrNoWorkerAvailable] at the [select], whatever a
    worker would reply: it does not wait, the job is not queued, and the
    manager, with its queue, is as before. *)
Theorem full_queue_rejects_without_waiting `{sobek.Engine}
    (c : Config) (s0 s : System) (acts : list Action)
    (reply : ScriptResult) (js : string)
    (Hboot : boot_system c = Some s0)
    (Hrun : run c acts s0 = Some s)
    (Hfull : chan_full (jobQueue (scriptManager (proc s))))
    (Hsize : Z.of_nat (String.length js) <= maxScriptSize (scriptManager (proc s))) :
  Z.of_nat (chan_cap (jobQueue (scriptManager (proc s)))) = WorkerPoolSize c /\
  Z.of_nat (length (chan_buf (jobQueue (scriptManager (proc s))))) = WorkerPoolSize c /\
  exists p',
    submit js (proc s) = (Returned ErrNoWorkerAvailable, p') /\
    ExecuteScriptWithTimeout reply js (proc s)
      = ((GoNil, Some ErrNoWorkerAvailable), p') /\
    scriptManager p' = scriptManager (proc s) /\
    jobQueue (scriptManager p') = jobQueue (scriptManager (proc s)) /\
    heap p' = heap (proc s) /\
    trace p' = trace (proc s).
Proof.
  apply boot_system_spec in Hboot as (Hb & _ & _).
  apply boot_queue_inv in Hb.
  destruct (run_queue_inv c acts s0 s Hrun Hb) as (_ & Hcap & Hlen).
  split; [done |]. split; [unfold chan_full in Hfull; lia |].
  destruct (submit_full js (proc s) Hfull Hsize) as (p' & Hsub & Hsm & Hh & Ht).
  exists p'. unfold ExecuteScriptWithTimeout. rewrite Hsub, Hsm. done.
Qed.

(** The loop of the monitor is a run of monitor actions. *)
Lemma run_memoryMonitor `{sobek.Engine} c samples o p o' p' :
  memoryMonitor c samples o p = Running o' p' ->
  run c (AMonitor <$> samples) (MkSystem p o false) = Some (MkSystem p' o' false).
Proof.
  revert o p. induction samples as [|smp samples IH]; intros o p;
    cbn [memoryMonitor fmap list_fmap run].
  - by intros [= <- <-].
  - unfold step. cbn [exited proc overLimitStart].
    destruct (memoryMonitor_iter c smp o p) as [o1 p1 | p1]; [| done].
    apply IH.
Qed.

(** ** The overage the monitor remembers *)

Lemma run_app `{sobek.Engine} c l1 l2 s :
  run c (l1 ++ l2) s = run c l1 s ≫= run c l2.
Proof.
  revert s. induction l1 as [|a l1 IH]; intros s; cbn [run app]; [done |].
  destruct (step c a s); [apply IH | done].
Qed.

Lemma run_snoc `{sobek.Engine} c l a s0 s :
  run c (l ++ [a]) s0 = Some s ->
  exists s1, run c l s0 = Some s1 /\ step c a s1 = Some s.
Proof.
  rewrite run_app. destruct (run c l s0) as [s1|]; cbn; [| done].
  destruct (step c a s1) as [s2|] eqn:Hs; [| done].
  intros [= <-]. by exists s1.
Qed.

Lemma memoryMonitor_iter_exited c smp ols p p' :
  memoryMonitor_iter c smp ols p = Exited p' -> over_limit c smp = true.
Proof.
  destruct (over_limit c smp) eqn:Ho; [done |].
  rewrite memoryMonitor_iter_under by done. by destruct (negb _).
Qed.

Lemma step_overLimitStart `{sobek.Engine} c a s1 s :
  step c a s1 = Some s ->
  (overLimitStart s = overLimitStart s1 /\
   forall m, a = AMonitor m -> over_limit c m = true) \/
  (exists m, a = AMonitor m /\ over_limit c m = true /\
             overLimitStart s1 = 0 /\ overLimitStart s = Now m) \/
  overLimitStart s = 0.
Proof.
  unfold step. destruct (exited s1); [done |].
  destruct a as [reply w r | sel | smp |].
  - intros [= <-]. left. by split.
  - destruct (worker_iter sel (proc s1)) as [[[??]?]|]; [| done].
    intros [= <-]. left. by split.
  - destruct (memoryMonitor_iter c smp (overLimitStart s1) (proc s1))
      as [o p' | p'] eqn:Hm.
    + intros [= <-]. cbn [overLimitStart].
      apply memoryMonitor_iter_next in Hm.
      destruct (over_limit c smp) eqn:Ho; [| by right; right].
      destruct (Z.eqb_spec (overLimitStart s1) 0) as [H0 | Hn].
      * right. left. exists smp. done.
      * left. split; [done |]. by intros m [= <-].
    + intros [= <-]. left. split; [done |]. intros m [= <-].
      by eapply memoryMonitor_iter_exited.
  - intros [= <-]. left. by split.
Qed.

Lemma run_overage `{sobek.Engine} c s0 acts s :
  overLimitStart s0 = 0 ->
  run c acts s0 = Some s ->
  overLimitStart s <> 0 ->
  overage_since c s0 acts (overLimitStart s).
Proof.
  intros H0. revert s. induction acts as [|a acts IH] using rev_ind; intros s.
  - intros [= <-] Hne. done.
  - intros (s1 & Hr & Hs)%run_snoc Hne.
    destruct (step_overLimitStart c a s1 s Hs)
      as [[Heq Hover] | [(m & -> & Ho & H1 & Hnow) | Hz]]; [| | done].
    + rewrite Heq in Hne |- *.
      destruct (IH s1 Hr Hne) as (before & smp0 & between & sb & -> & ? & ? & ? & ? & Hb).
      exists before, smp0, (between ++ [a]), sb.
      rewrite <- app_assoc. repeat split; try done.
      intros m [Hin | Hin%list_elem_of_singleton]%elem_of_app; [by apply Hb |].
      by apply Hover.
    + exists acts, m, [], s1. repeat split; try done.
      intros m' Hin. by apply elem_of_nil in Hin.
Qed.


(** ** The admission gate *)

Lemma step_keeps_gate `{sobek.Engine} c a s s' :
  step c a s = Some s' ->
  (forall smp, a <> AMonitor smp) ->
  GetAcceptingScript (proc s') = GetAcceptingScript (proc s).
Proof.
  unfold step, GetAcceptingScript. destruct (exited s); [done |].
  destruct a as [reply w r | sel | smp |]; intros Hs Hna.
  - injection Hs as <-. cbn [proc]. by rewrite handler_gate.
  - destruct (worker_iter sel (proc s)) as [[[job res] p']|] eqn:Hw; [| done].
    injection Hs as <-. cbn [proc].
    apply worker_iter_frame in Hw as (_ & _ & ->). done.
  - by destruct (Hna smp).
  - injection Hs as <-. cbn [proc].
    destruct (handleGraceFullShutdown_frame c (proc s)) as (_ & _ & _ & _ & ->).
    done.
Qed.

(** C10. In a run of the process, a step that finds the gate closed and
    leaves it open is a round of the monitor whose sample is not over the
    limit, made while [overLimitStart] is set: an earlier round recorded
    an overage and every round since was over the limit. In that round
    the monitor sleeps ten seconds and only then stores 1 in the gate.
    Conversely such a round always ends with the gate open. *)
Theorem gate_reopens_only_after_settling `{sobek.Engine}
    (c : Config) (s0 s s' : System) (acts : list Action) (a : Action)
    (Hboot : boot_system c = Some s0)
    (Hrun : run c acts s0 = Some s)
    (Hstep : step c a s = Some s') :
  (GetAcceptingScript (proc s) = false ->
   GetAcceptingScript (proc s') = true ->
   exists smp,
     a = AMonitor smp /\
     over_limit c smp = false /\
     overLimitStart s <> 0 /\
     (exists before smp0 between sb,
         acts = before ++ AMonitor smp0 :: between /\
         run c before s0 = Some sb /\
         overLimitStart sb = 0 /\
         over_limit c smp0 = true /\
         Now smp0 = overLimitStart s /\
         forall m, AMonitor m ∈ between -> over_limit c m = true) /\
     trace (proc s') = trace (proc s) ++ recovery_events) /\
  (forall smp,
      a = AMonitor smp -> over_limit c smp = false -> overLimitStart s <> 0 ->
      GetAcceptingScript (proc s') = true /\
      overLimitStart s' = 0 /\
      trace (proc s') = trace (proc s) ++ recovery_events).
Proof.
  apply boot_system_spec in Hboot as (_ & Hols0 & _).
  assert (Hrec : forall smp,
             a = AMonitor smp -> over_limit c smp = false ->
             overLimitStart s <> 0 ->
             GetAcceptingScript (proc s') = true /\
             overLimitStart s' = 0 /\
             trace (proc s') = trace (proc s) ++ recovery_events).
  { intros smp -> Ho Hne. unfold step in Hstep.
    destruct (exited s); [done |].
    rewrite memoryMonitor_iter_under in Hstep by done.
    apply Z.eqb_neq in Hne. rewrite Hne in Hstep. cbn [negb] in Hstep.
    injection Hstep as <-. cbn. by rewrite <- !app_assoc. }
  split; [| exact Hrec].
  intros Hclosed Hopen.
  destruct a as [reply w r | sel | smp |];
    try (rewrite (step_keeps_gate c _ s s' Hstep) in Hopen by done; congruence).
  exists smp. split; [done |].
  destruct (over_limit c smp) eqn:Ho.
  { exfalso. unfold step in Hstep. destruct (exited s); [done |].
    destruct (memoryMonitor_iter_over c smp (overLimitStart s) (proc s) Ho)
      as (Hg & _).
    destruct (memoryMonitor_iter _ _ _ _); injection Hstep as <-;
      cbn [outcome_proc proc] in *; congruence. }
  split; [done |].
  destruct (Z.eq_dec (overLimitStart s) 0) as [Hz | Hne].
  { exfalso. unfold step in Hstep. destruct (exited s); [done |].
    rewrite memoryMonitor_iter_under in Hstep by done.
    rewrite Hz in Hstep. cbn in Hstep. injection Hstep as <-.
    cbn in Hopen. unfold GetAcceptingScript in *. cbn in *. congruence. }
  split; [done |]. split.
  - destruct (run_overage c s0 acts s Hols0 Hrun Hne)
      as (before & smp0 & between & sb & ? & ? & ? & ? & ? & ?).
    by exists before, smp0, between, sb.
  - by apply (Hrec smp).
Qed.

(** ** The responses of the handler *)

Lemma error_Error_nonempty e : error_Error e <> "".
Proof. by destruct e. Qed.




(** * Concrete runs *)

Lemma toy_boot : boot_system toy_config = Some toy_system.
Proof. vm_compute. reflexivity. Qed.


(** C1, at the failing input. The size limit is 4 and the body has five
    bytes: the handler does not answer 400; it submits the first four
    bytes, a worker builds a runtime and evaluates them, and the answer
    is 200 with the value of the prefix, 1234. *)
Theorem oversized_body_is_truncated_and_evaluated :
  let r := post "12345" in
  Z.of_nat (String.length (http.Body r)) > maxScriptSize (scriptManager toy_proc) /\
  handler_script r toy_proc = Some "1234" /\
  exists w p,
    @serve toy_engine ResultFirst http.fresh r toy_proc = Some (w, p) /\
    http.sent_status w = http.StatusOK /\
    http.written w = [http.JSON [("result", http.JNumber 1234)]] /\
    EvNewVM 0 ∈ trace p /\
    EvRunString 0 "1234" ∈ trace p.
Proof.
  cbv zeta. split; [by vm_compute |]. split; [by vm_compute |].
  destruct (@serve toy_engine ResultFirst http.fresh (post "12345") toy_proc)
    as [[w p]|] eqn:Hs; [| by vm_compute in Hs].
  exists w, p. split; [done |].
  vm_compute in Hs. injection Hs as <- <-.
  split; [by vm_compute |]. split; [by vm_compute |].
  split; apply (bool_decide_unpack _); by vm_compute.
Qed.

(** C3, at the failing input. With the gate closed a POST is answered
    with status 405 and a line of plain text; the queue is not touched. *)
Theorem closed_gate_answers_405 (reply : ScriptResult) :
  let p := with_sm (set_acceptingScript 0) toy_proc in
  let out := handler reply http.fresh (post "1+1") p in
  GetAcceptingScript p = false /\
  http.sent_status out.1 = http.StatusMethodNotAllowed /\
  http.sent_status out.1 <> http.StatusServiceUnavailable /\
  http.written out.1
    = [http.Text "Currently not accepting script, please wait..."] /\
  out.2 = p.
Proof. cbv zeta. repeat split; by vm_compute. Qed.

(** A script that runs into its deadline on the toy engine: the engine
    fails with the reason of the interrupt, and the caller gets that
    failure with the text "script execution failed: ...", not the text of
    [ErrScriptTimeout]. *)
Example timed_out_script_reports_engine_failure :
  let out := @executeScript toy_engine ContextDone "while(true){}" (Some O) toy_proc in
  Error out.1 = Some (ErrExecutionFailed "canceled by context") /\
  (error_Error <$> Error out.1)
    = Some "script execution failed: canceled by context" /\
  (error_Error <$> Error out.1) <> Some (error_Error ErrScriptTimeout).
Proof. cbv zeta. repeat split; by vm_compute. Qed.


(** C5 at a body of five bytes under the limit 4. *)
Lemma handler_submits_truncated_body_witness :
  0 <= maxScriptSize (scriptManager toy_proc) /\
  handler_script (post "12345") toy_proc = Some "1234" /\
  "1234" = string_take (Z.to_nat (maxScriptSize (scriptManager toy_proc)))
             (http.Body (post "12345")) /\
  (submit "1234" toy_proc).1 <> Returned ErrScriptTooLarge.
Proof.
  assert (Hmax : 0 <= maxScriptSize (scriptManager toy_proc))
    by (vm_compute; discriminate).
  assert (Hbody : handler_script (post "12345") toy_proc = Some "1234")
    by (vm_compute; reflexivity).
  split; [exact Hmax |]. split; [exact Hbody |].
  pose proof (handler_submits_truncated_body no_reply http.fresh
                (post "12345") toy_proc "1234" Hmax Hbody) as (_ & Ht & _ & Hs & _).
  split; [exact Ht | exact Hs].
Defined.

(** C7 on the toy process, whose queue has one slot: after one request
    has been queued, the next call is refused. *)
Lemma full_queue_rejects_without_waiting_witness :
  let acts := [ARequest no_reply http.fresh (post "12")] in
  let s := toy_after acts in
  boot_system toy_config = Some toy_system /\
  @run toy_engine toy_config acts toy_system = Some s /\
  chan_full (jobQueue (scriptManager (proc s))) /\
  Z.of_nat (String.length "34") <= maxScriptSize (scriptManager (proc s)) /\
  (ExecuteScriptWithTimeout no_reply "34" (proc s)).1
    = (GoNil, Some ErrNoWorkerAvailable).
Proof.
  intros acts s.
  assert (Hrun : @run toy_engine toy_config acts toy_system = Some s)
    by (vm_compute; reflexivity).
  assert (Hfull : chan_full (jobQueue (scriptManager (proc s))))
    by (vm_compute; lia).
  assert (Hsize : Z.of_nat (String.length "34")
                  <= maxScriptSize (scriptManager (proc s)))
    by (vm_compute; discriminate).
  split; [exact toy_boot |]. split; [exact Hrun |].
  split; [exact Hfull |]. split; [exact Hsize |].
  destruct (@full_queue_rejects_without_waiting toy_engine toy_config
              toy_system s acts no_reply "34" toy_boot Hrun Hfull Hsize)
    as (_ & _ & p' & _ & He & _).
  rewrite He. reflexivity.
Defined.

(** C8 on two evaluations in flight. *)
Lemma cancelAllScripts_interrupts_and_empties_witness :
  let entry := {| cancelFunc := Some 0%nat; vm := 0%nat; script := "a" |} in
  runningScripts (scriptManager toy_two_running) !! "script-1" = Some entry /\
  0%nat ∈ cancelled (cancelAllScripts toy_two_running) /\
  heap (cancelAllScripts toy_two_running) !! 0%nat
    = sobek.Interrupt "Script cancelled" <$> heap toy_two_running !! 0%nat.
Proof.
  intros entry.
  assert (Hin : runningScripts (scriptManager toy_two_running) !! "script-1"
                = Some entry) by (vm_compute; reflexivity).
  split; [exact Hin |].
  destruct (proj1 (@cancelAllScripts_interrupts_and_empties toy_engine
                     toy_two_running) "script-1" entry Hin)
    as (_ & Hh & Hc).
  split; [exact (Hc 0%nat eq_refl) | exact Hh].
Defined.


(** C10 on the toy process: over the limit at second 100, under it at
    second 101; the second round reopens the gate after the delay. *)
Lemma gate_reopens_only_after_settling_witness :
  let acts := [AMonitor (over_sample 100)] in
  let a := AMonitor (under_sample 101) in
  let s := toy_after acts in
  let s' := toy_after (acts ++ [a]) in
  boot_system toy_config = Some toy_system /\
  @run toy_engine toy_config acts toy_system = Some s /\
  @step toy_engine toy_config a s = Some s' /\
  GetAcceptingScript (proc s) = false /\
  GetAcceptingScript (proc s') = true /\
  trace (proc s') = trace (proc s) ++ recovery_events.
Proof.
  intros acts a s s'.
  assert (Hrun : @run toy_engine toy_config acts toy_system = Some s)
    by (vm_compute; reflexivity).
  assert (Hstep : @step toy_engine toy_config a s = Some s')
    by (vm_compute; reflexivity).
  assert (Hclosed : GetAcceptingScript (proc s) = false)
    by (vm_compute; reflexivity).
  assert (Hopen : GetAcceptingScript (proc s') = true)
    by (vm_compute; reflexivity).
  split; [exact toy_boot |]. split; [exact Hrun |]. split; [exact Hstep |].
  split; [exact Hclosed |]. split; [exact Hopen |].
  destruct (proj1 (@gate_reopens_only_after_settling toy_engine toy_config
                     toy_system s s' acts a toy_boot Hrun Hstep) Hclosed Hopen)
    as (smp & _ & _ & _ & _ & Ht).
  exact Ht.
Defined.

(** * Further properties *)

#[local] Transparent script_id next_counter.

(** ** The executor *)

Lemma foldl_restrict_heap_ne addr l p a :
  a <> addr -> heap (foldl (restrict_step addr) p l) !! a = heap p !! a.
Proof.
  intros Hne. revert p. induction l as [|g l IH]; intros p; cbn [foldl]; [done |].
  rewrite IH. cbn [restrict_step emit with_heap heap].
  by rewrite lookup_alter_ne.
Qed.

Lemma foldl_restrict_counters addr l p :
  nextAddr (foldl (restrict_step addr) p l) = nextAddr p /\
  nextCtx (foldl (restrict_step addr) p l) = nextCtx p /\
  cancelled (foldl (restrict_step addr) p l) = cancelled p.
Proof.
  revert p. induction l as [|g l IH]; intros p; cbn [foldl]; [done |].
  destruct (IH (restrict_step addr p g)) as (-> & -> & ->). done.
Qed.

Lemma exec_start_rest `{sobek.Engine} js cancel p :
  let p' := (exec_start js cancel p).2 in
  scriptCounter (scriptManager p') = next_counter (scriptManager p) /\
  nextAddr p' = S (nextAddr p) /\
  nextCtx p' = nextCtx p /\
  cancelled p' = cancelled p /\
  forall a, a <> nextAddr p -> heap p' !! a = heap p !! a.
Proof.
  unfold exec_start, new_vm, restrict.
  fold (restrict_step (nextAddr p)).
  generalize restrictedGlobals. intros l.
  set (p1 := emit _ _).
  cbn [snd emit register with_sm scriptManager set_runningScripts
       set_scriptCounter scriptCounter nextAddr nextCtx cancelled heap].
  destruct (foldl_restrict_counters (nextAddr p) l p1) as (-> & -> & ->).
  rewrite foldl_restrict_sm.
  repeat split; try done.
  intros a Hne. rewrite foldl_restrict_heap_ne by done.
  unfold p1. cbn [heap emit]. by rewrite lookup_insert_ne.
Qed.

Lemma exec_finish_rest `{sobek.Engine} sel e p :
  let p' := (exec_finish sel e p).2 in
  scriptCounter (scriptManager p') = scriptCounter (scriptManager p) /\
  nextAddr p' = nextAddr p /\
  cancelled p' = cancelled p /\
  forall a, a <> ev_vm e -> heap p' !! a = heap p !! a.
Proof.
  destruct sel; cbn; repeat split; try done.
  intros a Hne. by rewrite lookup_alter_ne.
Qed.

Lemma script_id_inj n m : script_id n = script_id m -> n = m.
Proof.
  unfold script_id. intros Heq.
  apply (inj (String.app "script-")) in Heq.
  by apply (inj pretty) in Heq.
Qed.

Lemma next_counter_range s : 0 <= next_counter s < 2 ^ 64.
Proof. unfold next_counter. apply Z.mod_pos_bound. lia. Qed.

Lemma succ_mod_neq n : 0 <= n < 2 ^ 64 -> (n + 1) mod 2 ^ 64 <> n.
Proof.
  intros Hn. destruct (Z.eq_dec (n + 1) (2 ^ 64)) as [He | Hne].
  - rewrite He, Z_mod_same_full. lia.
  - rewrite Z.mod_small by lia. lia.
Qed.

(** X1. [executeScript] removes from the registry the id it drew and
    changes no other entry; when that id was not registered before (as
    long as the counter has not wrapped onto a running script), the
    registry is the same after the call as before. The counter has
    advanced by one (modulo 2^64) and one runtime has been allocated. *)
Theorem executeScript_restores_registry `{sobek.Engine}
    (sel : Select) (js : string) (cancel : option nat) (p : Proc)
    (Hfresh : runningScripts (scriptManager p)
                !! script_id (next_counter (scriptManager p)) = None) :
  let p' := (executeScript sel js cancel p).2 in
  runningScripts (scriptManager p') = runningScripts (scriptManager p) /\
  scriptCounter (scriptManager p') = next_counter (scriptManager p) /\
  nextAddr p' = S (nextAddr p).
Proof.
  intros p'. unfold p'.
  destruct (executeScript_spec sel js cancel p) as (p1 & He & _ & Hreg).
  rewrite He. cbn [snd]. rewrite Hreg, delete_insert_eq, delete_id by done.
  split; [done |].
  unfold executeScript in He.
  pose proof (exec_start_rest js cancel p) as (Hc & Ha & _).
  destruct (exec_start js cancel p) as [e p0]. cbn [snd] in Hc, Ha.
  pose proof (exec_finish_rest sel e p0) as (Hc' & Ha' & _).
  rewrite He in Hc', Ha'. cbn [snd] in Hc', Ha'. split; congruence.
Qed.

(** X2. Two evaluations started one after the other are registered under
    different ids and work on different runtimes, whatever the value of
    the counter, so both entries are in the registry at the same time. *)
Theorem evaluations_in_flight_are_distinct `{sobek.Engine}
    (js1 js2 : string) (c1 c2 : option nat) (p : Proc) :
  let s1 := exec_start js1 c1 p in
  let s2 := exec_start js2 c2 s1.2 in
  ev_id s1.1 <> ev_id s2.1 /\
  ev_vm s1.1 <> ev_vm s2.1 /\
  runningScripts (scriptManager s2.2) !! ev_id s1.1
    = Some {| cancelFunc := c1; vm := ev_vm s1.1; script := js1 |} /\
  runningScripts (scriptManager s2.2) !! ev_id s2.1
    = Some {| cancelFunc := c2; vm := ev_vm s2.1; script := js2 |}.
Proof.
  intros s1 s2. unfold s2, s1. clear s1 s2.
  pose proof (exec_start_rest js1 c1 p) as (Hc & Ha & _).
  destruct (exec_start_spec js1 c1 p) as (p1 & He1 & _ & Hr1 & _).
  rewrite He1 in Hc, Ha |- *. cbn [fst snd] in *.
  destruct (exec_start_spec js2 c2 p1) as (p2 & He2 & _ & Hr2 & _).
  rewrite He2. cbn [fst snd ev_id ev_vm].
  assert (Hid : script_id (next_counter (scriptManager p))
                <> script_id (next_counter (scriptManager p1))).
  { intros Heq%script_id_inj. unfold next_counter at 2 in Heq.
    rewrite Hc in Heq. symmetry in Heq. revert Heq.
    apply succ_mod_neq, next_counter_range. }
  split; [done |]. split; [lia |].
  rewrite Hr2, Hr1. split.
  - rewrite lookup_insert_ne by done. by rewrite lookup_insert_eq.
  - by rewrite lookup_insert_eq, Ha.
Qed.

(** X3. [executeScript] allocates one runtime, at the next free address,
    and leaves every other runtime of the heap as it was; the new runtime
    stays in the heap, restricted, and interrupted when the context was
    done first. *)
Theorem executeScript_touches_only_its_runtime `{sobek.Engine}
    (sel : Select) (js : string) (cancel : option nat) (p : Proc) :
  let p' := (executeScript sel js cancel p).2 in
  heap p' !! nextAddr p = Some (evaluated_runtime sel) /\
  (forall a, a <> nextAddr p -> heap p' !! a = heap p !! a) /\
  cancelled p' = cancelled p.
Proof.
  intros p'. unfold p', executeScript.
  pose proof (exec_start_rest js cancel p) as (_ & _ & _ & Hcan & Hh).
  destruct (exec_start_spec js cancel p) as (p1 & He & Hnew & _).
  rewrite He in Hcan, Hh |- *. cbn [snd] in Hcan, Hh.
  set (e := MkEvaluation _ _ _).
  pose proof (exec_finish_rest sel e p1) as (_ & _ & Hcan' & Hh').
  split; [| split].
  - destruct sel; cbn [exec_finish evaluator_done snd unregister emit with_sm
                       heap vm_Interrupt with_heap ev_vm e evaluated_runtime].
    + done.
    + by rewrite lookup_alter_eq, Hnew.
  - intros a Hne. rewrite Hh' by done. by apply Hh.
  - congruence.
Qed.

(** ** Cancellation *)

(** X4. When [cancelAllScripts] runs while an evaluation is in flight,
    the evaluator finishes on a runtime interrupted with "Script
    cancelled" (or with "canceled by context" when the executor's own
    interrupt follows), the context of the job is cancelled, and the
    registry is empty both before and after the evaluator's own removal. *)
Theorem evaluation_cancelled_in_flight `{sobek.Engine}
    (sel : Select) (js : string) (ctx : nat) (p : Proc) :
  let started := exec_start js (Some ctx) p in
  let p2 := cancelAllScripts started.2 in
  let out := exec_finish sel started.1 p2 in
  out.1 = goroutine_result (sobek.RunString (cancelled_runtime sel) js) /\
  ctx ∈ cancelled p2 /\
  runningScripts (scriptManager p2) = ∅ /\
  runningScripts (scriptManager out.2) = ∅.
Proof.
  intros started p2 out. unfold out, p2, started. clear out p2 started.
  destruct (exec_start_spec js (Some ctx) p) as (p1 & -> & Hnew & Hreg & _).
  cbn [fst snd].
  set (id := script_id (next_counter (scriptManager p))) in *.
  set (entry := MkRunningScriptInfo (Some ctx) (nextAddr p) js) in *.
  assert (Hin : (id, entry) ∈ map_to_list (runningScripts (scriptManager p1))).
  { apply elem_of_map_to_list. rewrite Hreg. apply lookup_insert_eq. }
  assert (Hheap : heap (cancelAllScripts p1) !! nextAddr p
                  = Some (sobek.Interrupt "Script cancelled"
                            (strip restrictedGlobals sobek.New))).
  { unfold cancelAllScripts. rewrite foldl_cancel_heap, Hnew.
    rewrite decide_True; [done |].
    apply list_elem_of_fmap. by exists (id, entry). }
  split; [| split; [| split]].
  - destruct sel; unfold exec_finish; rewrite evaluator_done_spec;
      cbn [fst ev_vm ev_js]; rewrite lookup_total_alt.
    + by rewrite Hheap.
    + cbn [heap vm_Interrupt emit with_heap].
      by rewrite lookup_alter_eq, Hheap.
  - unfold cancelAllScripts. apply foldl_cancel_cancelled.
    right. by exists (id, entry).
  - apply cancelAllScripts_registry.
  - destruct (exec_finish_frame sel (MkEvaluation (nextAddr p) id js)
                (cancelAllScripts p1)) as (-> & _).
    rewrite cancelAllScripts_registry. apply delete_empty.
Qed.

(** X5. A second [cancelAllScripts] does nothing: it interrupts no
    runtime, cancels no context and leaves no event. *)
Theorem cancelAllScripts_idempotent (p : Proc) :
  cancelAllScripts (cancelAllScripts p) = cancelAllScripts p.
Proof.
  unfold cancelAllScripts at 1.
  rewrite cancelAllScripts_registry, map_to_list_empty. reflexivity.
Qed.

(** X6. [cancelAllScripts] touches the registered evaluations only: a
    runtime that no entry points to is not interrupted, a context is
    cancelled afterwards exactly if it was cancelled before or is the
    cancel function of an entry, and the queue, the gate, the counter and
    the size limit are as before. *)
Theorem cancelAllScripts_touches_only_registered (p : Proc) :
  let reg := runningScripts (scriptManager p) in
  let p' := cancelAllScripts p in
  (forall a, (forall id entry, reg !! id = Some entry -> vm entry <> a) ->
             heap p' !! a = heap p !! a) /\
  (forall c, c ∈ cancelled p' <->
             c ∈ cancelled p \/
             exists id entry, reg !! id = Some entry /\ cancelFunc entry = Some c) /\
  jobQueue (scriptManager p') = jobQueue (scriptManager p) /\
  acceptingScript (scriptManager p') = acceptingScript (scriptManager p) /\
  scriptCounter (scriptManager p') = scriptCounter (scriptManager p) /\
  maxScriptSize (scriptManager p') = maxScriptSize (scriptManager p).
Proof.
  intros reg p'.
  destruct (cancelAllScripts_frame p) as (Hm & Hq & _ & Hc & Ha).
  split; [| split; [| by repeat split]].
  - intros a Hno. unfold p', cancelAllScripts. rewrite foldl_cancel_heap.
    rewrite decide_False; [done |].
    intros ([id entry] & Heq & Hin%elem_of_map_to_list)%list_elem_of_fmap.
    cbn in Heq. by eapply Hno.
  - intros c. unfold p', cancelAllScripts. rewrite foldl_cancel_cancelled.
    split; (intros [? | Hex]; [by left | right]).
    + destruct Hex as ([id entry] & Hin%elem_of_map_to_list & Hc').
      by exists id, entry.
    + destruct Hex as (id & entry & Hin & Hc').
      exists (id, entry). split; [by apply elem_of_map_to_list | done].
Qed.

(** ** The memory monitor *)

(** X7. A round of the monitor that samples the heap at or under the
    limit cancels nothing and never closes the gate: the process goes on,
    [overLimitStart] is unset, registry, heap and queue are as before,
    and an open gate stays open. *)
Theorem monitor_under_limit_is_harmless
    (c : Config) (smp : Sample) (ols : Z) (p : Proc)
    (Hunder : over_limit c smp = false) :
  exists p',
    memoryMonitor_iter c smp ols p = Running 0 p' /\
    runningScripts (scriptManager p') = runningScripts (scriptManager p) /\
    heap p' = heap p /\
    cancelled p' = cancelled p /\
    jobQueue (scriptManager p') = jobQueue (scriptManager p) /\
    (GetAcceptingScript p = true -> GetAcceptingScript p' = true).
Proof.
  rewrite memoryMonitor_iter_under by done.
  destruct (Z.eqb_spec ols 0) as [-> | Hne]; cbn [negb]; eexists; by repeat split.
Qed.

(** X8. A round that finds the heap over the limit while the gate is
    already closed, and that does not escalate, only collects garbage: a
    script registered since the gate was closed is not cancelled. *)
Theorem monitor_over_limit_cancels_once
    (c : Config) (smp : Sample) (ols : Z) (p : Proc)
    (Hover : over_limit c smp = true)
    (Hclosed : GetAcceptingScript p = false)
    (Hcalm : escalates c smp ols = false) :
  exists p',
    memoryMonitor_iter c smp ols p
      = Running (if ols =? 0 then Now smp else ols) p' /\
    runningScripts (scriptManager p') = runningScripts (scriptManager p) /\
    heap p' = heap p /\
    cancelled p' = cancelled p /\
    trace p' = trace p ++ [EvSleep (100 * Millisecond); EvGC].
Proof.
  unfold memoryMonitor_iter. rewrite Hover.
  change (GetAcceptingScript (emit [EvSleep (100 * Millisecond)] p))
    with (GetAcceptingScript p). rewrite Hclosed.
  unfold escalates in Hcalm. rewrite Hover in Hcalm. cbn [andb] in Hcalm.
  unfold enforceMemoryLimit.
  destruct (ols =? 0); cbn [negb andb] in Hcalm |- *.
  - eexists. repeat split; try done. cbn. by rewrite <- app_assoc.
  - rewrite Hcalm. eexists. repeat split; try done.
    cbn. by rewrite <- app_assoc.
Qed.

(** X9. A restart that fails is tried again: when a round has called
    [restart] and the process goes on, every later round that finds the
    heap over the limit, with a clock that has not gone back, calls
    [restart] too. *)
Theorem failed_restart_is_retried
    (c : Config) (s1 s2 : Sample) (ols o : Z) (p p1 : Proc)
    (Hesc : escalates c s1 ols = true)
    (Hgo : memoryMonitor_iter c s1 ols p = Running o p1)
    (Hover : over_limit c s2 = true)
    (Hclock : Now s1 <= Now s2) :
  o = ols /\
  escalates c s2 o = true /\
  exists evs,
    trace (outcome_proc (memoryMonitor_iter c s2 o p1)) = trace p1 ++ evs /\
    EvRestart ∈ evs.
Proof.
  unfold escalates in Hesc.
  apply andb_true_iff in Hesc as [[Ho Hne]%andb_true_iff Hgt].
  apply memoryMonitor_iter_next in Hgo. rewrite Ho in Hgo.
  apply negb_true_iff in Hne. rewrite Hne in Hgo. subst o.
  assert (Hesc2 : escalates c s2 ols = true).
  { unfold escalates. rewrite Hover, Hne. cbn [negb andb].
    apply Z.gtb_gt in Hgt. apply Z.gtb_gt. lia. }
  split; [done |]. split; [done |].
  destruct (memoryMonitor_iter_over c s2 ols p1 Hover)
    as (_ & _ & _ & _ & evs & Ht & Hr).
  eexists. split; [exact Ht |].
  rewrite !elem_of_app. right. right. apply list_elem_of_further.
  apply Hr. unfold escalates in Hesc2. rewrite Hover in Hesc2. done.
Qed.

(** ** Restart and shutdown *)

(** X10. [restart] first shuts the server down with a deadline of five
    seconds. If that fails it returns at once and the scripts keep
    running; otherwise all scripts are cancelled, and the process exits
    (after starting its successor) only when the executable is found and
    started; in the other cases [restart] returns an error and the
    process goes on with an empty registry. *)
Theorem restart_outcomes (env : RestartEnv) (p : Proc) :
  let began := emit [EvRestart; EvServerShutdown (5 * Second)] p in
  match env with
  | ShutdownFails =>
      exists e, restart env p = Running (Some e) began
  | ExecutableFails | StartFails =>
      exists e,
        restart env p = Running (Some e) (cancelAllScripts began) /\
        runningScripts (scriptManager (cancelAllScripts began)) = ∅
  | RestartSucceeds =>
      exists p',
        restart env p = Exited p' /\
        runningScripts (scriptManager p') = ∅ /\
        trace p' = trace (cancelAllScripts began) ++ [EvSpawn; EvExit 0]
  end.
Proof.
  intros began. destruct env; cbn [restart Stop].
  - by eexists.
  - eexists. split; [done | apply cancelAllScripts_registry].
  - eexists. split; [done | apply cancelAllScripts_registry].
  - eexists. split; [done |]. split; [| done].
    apply (cancelAllScripts_registry began).
Qed.

(** X11. [handleGraceFullShutdown] shuts the server down first, then
    cancels every registered script, then pauses; the registry is empty
    at the end, while the gate is left as it was and the jobs still in
    the queue stay there. *)
Theorem graceful_shutdown_order (c : Config) (p : Proc) :
  let p' := handleGraceFullShutdown c p in
  trace p'
  = trace p ++ [EvServerShutdown (ShutdownTimeLimit c)]
      ++ concat (map cancel_events
                   (map_to_list (runningScripts (scriptManager p))))
      ++ [EvSleep (ShutdownPause c)] /\
  runningScripts (scriptManager p') = ∅ /\
  acceptingScript (scriptManager p') = acceptingScript (scriptManager p) /\
  jobQueue (scriptManager p') = jobQueue (scriptManager p).
Proof.
  intros p'. unfold p', handleGraceFullShutdown.
  set (p1 := emit [EvServerShutdown (ShutdownTimeLimit c)] p).
  destruct (cancelAllScripts_frame p1) as (_ & Hq & _ & _ & Ha).
  cbn [trace emit scriptManager]. rewrite cancelAllScripts_trace.
  cbn [trace emit scriptManager p1].
  rewrite cancelAllScripts_registry, Hq, Ha, <- !app_assoc. done.
Qed.

(** ** Start-up *)

(** X12. For a configuration that [initializeConfig] accepts and whose
    memory limit is below 2^44 MB, the limit of the monitor is that many
    mebibytes, at least one, and a sample is over the limit exactly when
    it exceeds it. In any case the limit fits 64 bits. *)
Theorem memory_limit_in_bytes (c : Config) (smp : Sample)
    (Hvalid : initializeConfig (Some c) = Some c)
    (Hsmall : MaxMemoryMB c < 2 ^ 44) :
  limitBytes c = MaxMemoryMB c * 1048576 /\
  1048576 <= limitBytes c < 2 ^ 64 /\
  (over_limit c smp = true <-> MaxMemoryMB c * 1048576 < Alloc smp).
Proof.
  unfold initializeConfig in Hvalid.
  destruct (Z.ltb_spec (MaxMemoryMB c) 1) as [? | Hmem]; [done |].
  assert (Hl : limitBytes c = MaxMemoryMB c * 1048576).
  { rewrite limitBytes_no_wrap by lia. lia. }
  split; [done |]. split; [lia |].
  unfold over_limit. rewrite Hl. rewrite Z.gtb_gt. lia.
Qed.

(** X13. [limitedCPUs] is at least 1; with two or more CPUs it is half
    of them, rounded down; with a single CPU it is that CPU. *)
Theorem limitedCPUs_bounds (n : Z) :
  1 <= limitedCPUs n /\
  (2 <= n -> 2 * limitedCPUs n <= n < 2 * limitedCPUs n + 2) /\
  (n < 2 -> limitedCPUs n = 1).
Proof.
  unfold limitedCPUs. split; [lia |]. split.
  - intros Hn. rewrite Z.quot_div_nonneg by lia.
    pose proof (Z.div_mod n 2 ltac:(lia)).
    pose proof (Z.mod_pos_bound n 2 ltac:(lia)). lia.
  - intros Hn. destruct (Z.le_gt_cases 0 n) as [Hpos | Hneg].
    + rewrite Z.quot_div_nonneg by lia.
      pose proof (Z.div_mod n 2 ltac:(lia)).
      pose proof (Z.mod_pos_bound n 2 ltac:(lia)). lia.
    + pose proof (Z.quot_rem' n 2).
      pose proof (Z.rem_bound_pos_neg n 2 ltac:(lia) ltac:(lia)). lia.
Qed.

Lemma boot_initial_state c p :
  boot c = Some p ->
  GetAcceptingScript p = true /\
  runningScripts (scriptManager p) = ∅ /\
  chan_buf (jobQueue (scriptManager p)) = [] /\
  Z.of_nat (chan_cap (jobQueue (scriptManager p))) = WorkerPoolSize c /\
  maxScriptSize (scriptManager p) = MaxScriptSize c.
Proof.
  unfold boot, initializeScriptManager, NewScriptManager, make_chan.
  destruct (Z.ltb_spec (WorkerPoolSize c) 0) as [Hneg | Hpos]; cbn; [done |].
  intros [= <-]. cbn. repeat split. lia.
Qed.


(** X15. With a worker pool of size zero the queue has no room at all:
    in every state the process reaches, a call of
    [ExecuteScriptWithTimeout] with a script within the size limit
    returns [ErrNoWorkerAvailable]. *)
Theorem empty_pool_refuses_every_script `{sobek.Engine}
    (c : Config) (s0 s : System) (acts : list Action)
    (reply : ScriptResult) (js : string)
    (Hzero : WorkerPoolSize c = 0)
    (Hboot : boot_system c = Some s0)
    (Hrun : run c acts s0 = Some s)
    (Hsize : Z.of_nat (String.length js) <= maxScriptSize (scriptManager (proc s))) :
  (ExecuteScriptWithTimeout reply js (proc s)).1
    = (GoNil, Some ErrNoWorkerAvailable) /\
  chan_buf (jobQueue (scriptManager (proc s))) = [].
Proof.
  apply boot_system_spec in Hboot as (Hb & _ & _).
  apply boot_queue_inv in Hb.
  destruct (run_queue_inv c acts s0 s Hrun Hb) as (_ & Hcap & Hlen).
  assert (Hfull : chan_full (jobQueue (scriptManager (proc s))))
    by (unfold chan_full; lia).
  destruct (submit_full js (proc s) Hfull Hsize) as (p' & Hsub & _).
  unfold ExecuteScriptWithTimeout. rewrite Hsub. split; [done |].
  destruct (chan_buf _); [done | cbn in Hlen; lia].
Qed.

(** ** The registry between steps *)

Lemma submit_registry js p :
  runningScripts (scriptManager (submit js p).2) = runningScripts (scriptManager p) /\
  heap (submit js p).2 = heap p /\
  trace (submit js p).2 = trace p /\
  scriptCounter (scriptManager (submit js p).2) = scriptCounter (scriptManager p) /\
  nextAddr (submit js p).2 = nextAddr p /\
  cancelled (submit js p).2 = cancelled p.
Proof.
  unfold submit, try_send.
  destruct (_ >? _); [done |].
  by destruct (_ <? _)%nat.
Qed.

Lemma memoryMonitor_iter_registry_empty c smp ols p :
  runningScripts (scriptManager p) = ∅ ->
  runningScripts (scriptManager (outcome_proc (memoryMonitor_iter c smp ols p))) = ∅.
Proof.
  intros Hp. unfold memoryMonitor_iter.
  destruct (over_limit c smp).
  - apply enforceMemoryLimit_registry.
    destruct (GetAcceptingScript _); [apply cancelAllScripts_registry | done].
  - by destruct (negb _).
Qed.

Lemma worker_iter_registry_empty `{sobek.Engine} sel p job res p' :
  worker_iter sel p = Some (job, res, p') ->
  runningScripts (scriptManager p) = ∅ ->
  runningScripts (scriptManager p') = ∅.
Proof.
  unfold worker_iter.
  destruct (chan_buf (jobQueue (scriptManager p))) as [|j rest]; [done |].
  set (p1 := MkProc _ _ _ _ _ _ _).
  destruct (executeScript_spec sel (Script j) (Some (nextCtx p)) p1)
    as (p2 & -> & _ & Hreg).
  intros [= <- <- <-] Hp. rewrite Hreg. cbn [p1 scriptManager set_jobQueue
                                             runningScripts].
  rewrite Hp, delete_insert_eq. apply delete_empty.
Qed.

(** X16. Between the steps of a run no evaluation is in flight, and the
    registry is empty: every worker iteration removes the entry it
    added, and nothing else adds one. *)
Theorem registry_empty_between_steps `{sobek.Engine}
    (c : Config) (s0 s : System) (acts : list Action)
    (Hboot : boot_system c = Some s0)
    (Hrun : run c acts s0 = Some s) :
  runningScripts (scriptManager (proc s)) = ∅.
Proof.
  assert (H0 : runningScripts (scriptManager (proc s0)) = ∅).
  { apply boot_system_spec in Hboot as (Hb & _ & _).
    by apply boot_initial_state in Hb as (_ & ? & _). }
  clear Hboot. revert s0 H0 Hrun.
  induction acts as [|a acts IH]; intros s0 H0; cbn [run].
  - by intros [= <-].
  - destruct (step c a s0) as [s1|] eqn:Hs; [| done].
    apply IH. unfold step in Hs. destruct (exited s0); [done |].
    destruct a as [reply w r | sel | smp |].
    + injection Hs as <-. cbn [proc].
      destruct (handler_state reply w r (proc s0)) as [-> | (body & _ & ->)];
        [done |].
      by destruct (submit_registry body (proc s0)) as (-> & _).
    + destruct (worker_iter sel (proc s0)) as [[[job res] p']|] eqn:Hw; [| done].
      injection Hs as <-. by eapply worker_iter_registry_empty.
    + pose proof (memoryMonitor_iter_registry_empty c smp (overLimitStart s0)
                    (proc s0) H0) as Hm.
      destruct (memoryMonitor_iter _ _ _ _); by injection Hs as <-.
    + injection Hs as <-. cbn [proc].
      apply (cancelAllScripts_registry (emit _ (proc s0))).
Qed.

(** ** Flags *)

(** X17. The value of [-verbose] and the level chosen determine each
    other on the seven names of the [switch]: the name of a level selects
    that level without complaint, a value accepted without complaint is
    the name of the level it selects, and every other value is reported
    and selects the info level. *)
Theorem ParseFlags_level_round_trip :
  (forall l, ParseFlags_level (level_flag l) = (l, false)) /\
  (forall s, (ParseFlags_level s).2 = false ->
             level_flag (ParseFlags_level s).1 = s) /\
  (forall s, (ParseFlags_level s).2 = true ->
             (ParseFlags_level s).1 = InfoLevel /\ forall l, s <> level_flag l).
Proof.
  split; [by intros [] |]. split.
  - intros s. unfold ParseFlags_level.
    destruct (String.eqb_spec s "trace") as [-> | ?]; [done |].
    destruct (String.eqb_spec s "debug") as [-> | ?]; [done |].
    destruct (String.eqb_spec s "info") as [-> | ?]; [done |].
    destruct (String.eqb_spec s "warn") as [-> | ?]; [done |].
    destruct (String.eqb_spec s "error") as [-> | ?]; [done |].
    destruct (String.eqb_spec s "fatal") as [-> | ?]; [done |].
    destruct (String.eqb_spec s "panic") as [-> | ?]; [done |].
    done.
  - intros s. unfold ParseFlags_level.
    destruct (String.eqb_spec s "trace") as [-> | ?]; [done |].
    destruct (String.eqb_spec s "debug") as [-> | ?]; [done |].
    destruct (String.eqb_spec s "info") as [-> | ?]; [done |].
    destruct (String.eqb_spec s "warn") as [-> | ?]; [done |].
    destruct (String.eqb_spec s "error") as [-> | ?]; [done |].
    destruct (String.eqb_spec s "fatal") as [-> | ?]; [done |].
    destruct (String.eqb_spec s "panic") as [-> | ?]; [done |].
    intros _. split; [done |]. by intros [].
Qed.

(** ** Reading the body *)

Lemma string_take_prefix k s : exists rest, s = string_take k s +:+ rest.
Proof.
  revert s. induction k as [|k IH]; intros s.
  - exists s. by destruct s.
  - destruct s as [|ch s]; [by exists "" |].
    destruct (IH s) as (rest & Hr). exists rest.
    cbn [string_take]. rewrite Hr at 1. reflexivity.
Qed.

Lemma string_take_all k s :
  (String.length s <= k)%nat -> string_take k s = s.
Proof.
  revert s. induction k as [|k IH]; intros [|ch s] Hl; cbn in *; try done; try lia.
  rewrite IH; [done | lia].
Qed.

(** X18. What the handler reads is always a prefix of the body, of the
    length of the body or of the limit, whichever is smaller; the read
    fails only for a body that breaks off before the limit is reached;
    and a body that ends cleanly within the limit is read whole. *)
Theorem limited_read_is_a_prefix (r : http.Request) (n : Z) :
  match ReadAll_LimitReader r n with
  | Some got =>
      (exists rest, http.Body r = got +:+ rest) /\
      Z.of_nat (String.length got)
        = Z.min (Z.of_nat (String.length (http.Body r))) (Z.max 0 n)
  | None =>
      http.BodyFails r = true /\
      Z.of_nat (String.length (http.Body r)) < n
  end /\
  (http.BodyFails r = false ->
   Z.of_nat (String.length (http.Body r)) <= n ->
   ReadAll_LimitReader r n = Some (http.Body r)).
Proof.
  unfold ReadAll_LimitReader.
  destruct (Z.leb_spec n 0) as [Hn | Hn].
  - split.
    + split; [by exists (http.Body r) |]. cbn. lia.
    + intros _ Hl. destruct (http.Body r); [done | cbn in Hl; lia].
  - destruct (Z.ltb_spec (Z.of_nat (String.length (http.Body r))) n) as [Hl | Hl];
      destruct (http.BodyFails r); cbn [andb]; (split; [| intros Hf Hle; try done]).
    + done.
    + split; [apply string_take_prefix |]. rewrite length_string_take. lia.
    + rewrite string_take_all; [done | lia].
    + split; [apply string_take_prefix |]. rewrite length_string_take. lia.
    + split; [apply string_take_prefix |]. rewrite length_string_take. lia.
    + rewrite string_take_all; [done | lia].
Qed.

(** ** The handler *)

(** X19. The handler itself never builds a runtime, evaluates, cancels or
    touches the gate: whatever the request, the heap, the trace, the
    registry, the counter, the cancelled contexts and the gate are as
    before, and the queue is either unchanged or longer by one job at its
    end, carrying the string the handler read. *)
Theorem handler_only_queues
    (reply : ScriptResult) (w : http.ResponseWriter) (r : http.Request)
    (p : Proc) :
  let p' := (handler reply w r p).2 in
  heap p' = heap p /\
  trace p' = trace p /\
  runningScripts (scriptManager p') = runningScripts (scriptManager p) /\
  scriptCounter (scriptManager p') = scriptCounter (scriptManager p) /\
  cancelled p' = cancelled p /\
  acceptingScript (scriptManager p') = acceptingScript (scriptManager p) /\
  (chan_buf (jobQueue (scriptManager p')) = chan_buf (jobQueue (scriptManager p)) \/
   exists job,
     handler_script r p = Some (Script job) /\
     chan_buf (jobQueue (scriptManager p'))
       = chan_buf (jobQueue (scriptManager p)) ++ [job]).
Proof.
  intros p'. unfold p'.
  destruct (handler_state reply w r p) as [-> | (body & Hs & ->)].
  - repeat split; try done. by left.
  - destruct (submit_registry body p) as (-> & -> & -> & -> & _ & ->).
    rewrite submit_gate. repeat split; try done.
    unfold submit, try_send.
    destruct (_ >? _); [by left |].
    destruct (_ <? _)%nat; cbn; [| by left].
    right. eexists. split; [| reflexivity]. exact Hs.
Qed.

(** X20. The checks of the handler come in a fixed order: a request that
    is not a POST is answered 405 whatever its body and the gate, and a
    POST whose body breaks off before the size limit is answered 400 even
    when the gate is closed; in both cases nothing changes in the process. *)
Theorem handler_checks_in_order
    (reply : ScriptResult) (w : http.ResponseWriter) (r : http.Request)
    (p : Proc) :
  (http.Method r <> http.MethodPost ->
   handler reply w r p
   = (http.Error w "Only POST requests are allowed" http.StatusMethodNotAllowed, p)) /\
  (http.Method r = http.MethodPost ->
   http.BodyFails r = true ->
   Z.of_nat (String.length (http.Body r)) < maxScriptSize (scriptManager p) ->
   handler reply w r p
   = (http.Error w "Failed to read request body" http.StatusBadRequest, p)).
Proof.
  unfold handler. split.
  - intros Hm. by destruct (String.eqb_spec (http.Method r) http.MethodPost).
  - intros Hm Hf Hl. rewrite Hm, String.eqb_refl. cbn [negb].
    unfold ReadAll_LimitReader. rewrite Hf.
    destruct (Z.leb_spec (maxScriptSize (scriptManager p)) 0); [lia |].
    destruct (Z.ltb_spec (Z.of_nat (String.length (http.Body r)))
                (maxScriptSize (scriptManager p))); [done | lia].
Qed.

(** The answer written on a fresh response for a result of
    [ExecuteScriptWithTimeout]. *)
Lemma handler_respond_fresh res :
  let w := handler_respond res http.fresh in
  match res.2 with
  | None =>
      http.sent_status w = http.StatusOK /\
      http.sent_header w !! "Content-Type" = Some "application/json" /\
      http.written w
      = match www.marshal_value res.1 with
        | None => []
        | Some j =>
            [http.JSON (match res.1 with GoNil => [] | _ => [("result", j)] end)]
        end
  | Some e =>
      http.sent_status w = error_status e /\
      http.written w = [http.JSON [("error", http.JString (error_Error e))]]
  end.
Proof.
  destruct res as [v [e|]]; cbn [fst snd]; unfold handler_respond; cbn [fst snd].
  - unfold www.Encode, www.marshal.
    cbn [www.Result www.Error fmap option_fmap option_map].
    rewrite decide_False by apply error_Error_nonempty.
    by destruct e.
  - unfold www.Encode, www.marshal. cbn [www.Result www.Error].
    rewrite decide_True by done.
    by destruct v.
Qed.

(** X21. When the gate is open and the queue is full, a POST whose body
    was read is answered 503 with the JSON object whose only member is
    the error "no worker available to process script"; the manager is
    unchanged. *)
Theorem handler_answers_503_when_queue_is_full
    (reply : ScriptResult) (r : http.Request) (p : Proc) (body : string)
    (Hmax : 0 <= maxScriptSize (scriptManager p))
    (Hbody : handler_script r p = Some body)
    (Hfull : chan_full (jobQueue (scriptManager p))) :
  let out := handler reply http.fresh r p in
  http.sent_status out.1 = http.StatusServiceUnavailable /\
  http.written out.1
    = [http.JSON [("error", http.JString "no worker available to process script")]] /\
  scriptManager out.2 = scriptManager p.
Proof.
  intros out. unfold out. rewrite handler_unfold, Hbody. cbn [fst snd].
  apply handler_script_body in Hbody as (_ & _ & Hread).
  apply ReadAll_LimitReader_length in Hread as [_ Hlen]; [| done].
  destruct (submit_full body p Hfull Hlen) as (p' & Hsub & Hsm & _).
  unfold ExecuteScriptWithTimeout. rewrite Hsub. cbn [fst snd].
  pose proof (handler_respond_fresh (GoNil, Some ErrNoWorkerAvailable)) as Hr.
  cbn [snd] in Hr. destruct Hr as (Hst & Hw).
  by rewrite Hst, Hw, Hsm.
Qed.

(** ** Queue and workers *)

Lemma worker_iter_head `{sobek.Engine} sel p j rest :
  chan_buf (jobQueue (scriptManager p)) = j :: rest ->
  exists p',
    worker_iter sel p = Some (job_result j sel, p') /\
    jobQueue (scriptManager p') = MkChan (chan_cap (jobQueue (scriptManager p))) rest.
Proof.
  intros Hbuf. unfold worker_iter. rewrite Hbuf.
  set (p1 := MkProc _ _ _ _ _ _ _).
  pose proof (executeScript_frame sel (Script j) (Some (nextCtx p)) p1)
    as (_ & Hq & _).
  destruct (executeScript_spec sel (Script j) (Some (nextCtx p)) p1)
    as (p2 & He & _).
  rewrite He in Hq |- *. cbn [snd] in Hq.
  exists p2. split; [done |]. by rewrite Hq.
Qed.

(** X22. A worker serves the queue in order: the loop takes the jobs from
    the head of the queue, one for each [select] outcome given, and
    answers each with the result of evaluating that job's script on a
    fresh restricted runtime; the jobs it did not get to stay queued in
    their order, and the capacity of the queue is unchanged. *)
Theorem worker_serves_in_queue_order `{sobek.Engine}
    (sels : list Select) (p : Proc) :
  let q := jobQueue (scriptManager p) in
  let out := worker sels p in
  out.1 = zip_with job_result (chan_buf q) sels /\
  chan_buf (jobQueue (scriptManager out.2)) = drop (length sels) (chan_buf q) /\
  chan_cap (jobQueue (scriptManager out.2)) = chan_cap q.
Proof.
  revert p. induction sels as [|sel sels IH]; intros p; cbn [worker length].
  - cbn. split; [| done]. by destruct (chan_buf _).
  - destruct (chan_buf (jobQueue (scriptManager p))) as [|j rest] eqn:Hbuf.
    + unfold worker_iter. rewrite Hbuf. cbn. by rewrite Hbuf.
    + destruct (worker_iter_head sel p j rest Hbuf) as (p' & -> & Hq).
      unfold job_result.
      specialize (IH p'). cbv zeta in IH. rewrite Hq in IH.
      cbn [chan_buf chan_cap] in IH.
      destruct (worker sels p') as [served p''].
      cbn [fst snd] in IH |- *. destruct IH as (-> & -> & ->).
      done.
Qed.

(** ** A request from end to end *)


(** ** The further properties on the toy process *)

(** X1 on the toy process, whose registry is empty. *)
Lemma executeScript_restores_registry_witness :
  runningScripts (scriptManager toy_proc)
    !! script_id (next_counter (scriptManager toy_proc)) = None /\
  runningScripts
    (scriptManager (@executeScript toy_engine ResultFirst "12" (Some O) toy_proc).2)
  = runningScripts (scriptManager toy_proc).
Proof.
  assert (Hfresh : runningScripts (scriptManager toy_proc)
                     !! script_id (next_counter (scriptManager toy_proc)) = None)
    by (vm_compute; reflexivity).
  split; [exact Hfresh |].
  exact (proj1 (@executeScript_restores_registry toy_engine ResultFirst "12"
                  (Some O) toy_proc Hfresh)).
Defined.

(** X3 on the toy process with two evaluations started: a third one leaves
    the runtime at address 0 alone. *)
Lemma executeScript_touches_only_its_runtime_witness :
  0%nat <> nextAddr toy_two_running /\
  heap (@executeScript toy_engine ContextDone "12" None toy_two_running).2 !! 0%nat
  = heap toy_two_running !! 0%nat.
Proof.
  assert (Hne : 0%nat <> nextAddr toy_two_running) by (vm_compute; discriminate).
  split; [exact Hne |].
  exact (proj1 (proj2 (@executeScript_touches_only_its_runtime toy_engine
                         ContextDone "12" None toy_two_running)) 0%nat Hne).
Defined.

(** X6 on two evaluations in flight: context 0 belongs to an entry and is
    cancelled. *)
Lemma cancelAllScripts_touches_only_registered_witness :
  let entry := {| cancelFunc := Some 0%nat; vm := 0%nat; script := "a" |} in
  runningScripts (scriptManager toy_two_running) !! "script-1" = Some entry /\
  0%nat ∈ cancelled (cancelAllScripts toy_two_running).
Proof.
  intros entry.
  assert (Hin : runningScripts (scriptManager toy_two_running) !! "script-1"
                = Some entry) by (vm_compute; reflexivity).
  split; [exact Hin |].
  apply (proj2 (proj1 (proj2 (cancelAllScripts_touches_only_registered
                                toy_two_running)) 0%nat)).
  right. exists "script-1", entry. split; [exact Hin | reflexivity].
Defined.

(** X7 on the toy process just booted. *)
Lemma monitor_under_limit_is_harmless_witness :
  over_limit toy_config (under_sample 5) = false /\
  GetAcceptingScript toy_proc = true /\
  exists p',
    memoryMonitor_iter toy_config (under_sample 5) 0 toy_proc = Running 0 p' /\
    GetAcceptingScript p' = true.
Proof.
  assert (Hu : over_limit toy_config (under_sample 5) = false)
    by (vm_compute; reflexivity).
  assert (Hg : GetAcceptingScript toy_proc = true) by (vm_compute; reflexivity).
  split; [exact Hu |]. split; [exact Hg |].
  destruct (monitor_under_limit_is_harmless toy_config (under_sample 5) 0
              toy_proc Hu) as (p' & He & _ & _ & _ & _ & Hk).
  exists p'. split; [exact He | exact (Hk Hg)].
Defined.

(** X8 on the toy process ten seconds after the gate was closed. *)
Lemma monitor_over_limit_cancels_once_witness :
  let p := proc (toy_after [AMonitor (over_sample 100)]) in
  over_limit toy_config (over_sample 110) = true /\
  GetAcceptingScript p = false /\
  escalates toy_config (over_sample 110) 100 = false /\
  exists p',
    memoryMonitor_iter toy_config (over_sample 110) 100 p = Running 100 p' /\
    trace p' = trace p ++ [EvSleep (100 * Millisecond); EvGC].
Proof.
  intros p.
  assert (Ho : over_limit toy_config (over_sample 110) = true)
    by (vm_compute; reflexivity).
  assert (Hc : GetAcceptingScript p = false) by (vm_compute; reflexivity).
  assert (He : escalates toy_config (over_sample 110) 100 = false)
    by (vm_compute; reflexivity).
  split; [exact Ho |]. split; [exact Hc |]. split; [exact He |].
  destruct (monitor_over_limit_cancels_once toy_config (over_sample 110) 100 p
              Ho Hc He) as (p' & Hr & _ & _ & _ & Ht).
  exists p'. split; [exact Hr | exact Ht].
Defined.

(** X9 on the toy process: the restart of second 200 fails and is tried
    again at second 300. *)
Lemma failed_restart_is_retried_witness :
  let p := proc (toy_after [AMonitor (over_sample 100)]) in
  let p1 := outcome_proc (memoryMonitor_iter toy_config (over_sample 200) 100 p) in
  escalates toy_config (over_sample 200) 100 = true /\
  memoryMonitor_iter toy_config (over_sample 200) 100 p = Running 100 p1 /\
  over_limit toy_config (over_sample 300) = true /\
  Now (over_sample 200) <= Now (over_sample 300) /\
  escalates toy_config (over_sample 300) 100 = true.
Proof.
  intros p p1.
  assert (He : escalates toy_config (over_sample 200) 100 = true)
    by (vm_compute; reflexivity).
  assert (Hg : memoryMonitor_iter toy_config (over_sample 200) 100 p
               = Running 100 p1) by (vm_compute; reflexivity).
  assert (Ho : over_limit toy_config (over_sample 300) = true)
    by (vm_compute; reflexivity).
  assert (Hc : Now (over_sample 200) <= Now (over_sample 300))
    by (vm_compute; discriminate).
  split; [exact He |]. split; [exact Hg |]. split; [exact Ho |].
  split; [exact Hc |].
  exact (proj1 (proj2 (failed_restart_is_retried toy_config (over_sample 200)
                         (over_sample 300) 100 100 p p1 He Hg Ho Hc))).
Defined.

(** X12 on the toy configuration, whose limit is 1 MB. *)
Lemma memory_limit_in_bytes_witness :
  initializeConfig (Some toy_config) = Some toy_config /\
  MaxMemoryMB toy_config < 2 ^ 44 /\
  limitBytes toy_config = MaxMemoryMB toy_config * 1048576.
Proof.
  assert (Hv : initializeConfig (Some toy_config) = Some toy_config)
    by (vm_compute; reflexivity).
  assert (Hs : MaxMemoryMB toy_config < 2 ^ 44) by (vm_compute; reflexivity).
  split; [exact Hv |]. split; [exact Hs |].
  exact (proj1 (memory_limit_in_bytes toy_config (over_sample 0) Hv Hs)).
Defined.

(** X13 at eight CPUs. *)
Lemma limitedCPUs_bounds_witness :
  2 <= 8 /\ 2 * limitedCPUs 8 <= 8 < 2 * limitedCPUs 8 + 2.
Proof.
  assert (H8 : 2 <= 8) by (vm_compute; discriminate).
  split; [exact H8 |].
  exact (proj1 (proj2 (limitedCPUs_bounds 8)) H8).
Defined.


(** X15 on the toy configuration without workers. *)
Lemma empty_pool_refuses_every_script_witness :
  WorkerPoolSize toy_config_no_workers = 0 /\
  boot_system toy_config_no_workers = Some toy_system_no_workers /\
  @run toy_engine toy_config_no_workers [] toy_system_no_workers
    = Some toy_system_no_workers /\
  Z.of_nat (String.length "12")
    <= maxScriptSize (scriptManager (proc toy_system_no_workers)) /\
  (ExecuteScriptWithTimeout no_reply "12" (proc toy_system_no_workers)).1
    = (GoNil, Some ErrNoWorkerAvailable).
Proof.
  assert (Hz : WorkerPoolSize toy_config_no_workers = 0) by reflexivity.
  assert (Hb : boot_system toy_config_no_workers = Some toy_system_no_workers)
    by (vm_compute; reflexivity).
  assert (Hr : @run toy_engine toy_config_no_workers [] toy_system_no_workers
               = Some toy_system_no_workers) by reflexivity.
  assert (Hs : Z.of_nat (String.length "12")
               <= maxScriptSize (scriptManager (proc toy_system_no_workers)))
    by (vm_compute; discriminate).
  split; [exact Hz |]. split; [exact Hb |]. split; [exact Hr |].
  split; [exact Hs |].
  exact (proj1 (@empty_pool_refuses_every_script toy_engine
                  toy_config_no_workers toy_system_no_workers
                  toy_system_no_workers [] no_reply "12" Hz Hb Hr Hs)).
Defined.

(** X16 on the toy process after a request and the worker that serves it. *)
Lemma registry_empty_between_steps_witness :
  let acts := [ARequest no_reply http.fresh (post "12"); AWorker ResultFirst] in
  boot_system toy_config = Some toy_system /\
  @run toy_engine toy_config acts toy_system = Some (toy_after acts) /\
  runningScripts (scriptManager (proc (toy_after acts))) = ∅.
Proof.
  intros acts.
  assert (Hr : @run toy_engine toy_config acts toy_system = Some (toy_after acts))
    by (vm_compute; reflexivity).
  split; [exact toy_boot |]. split; [exact Hr |].
  exact (@registry_empty_between_steps toy_engine toy_config toy_system
           (toy_after acts) acts toy_boot Hr).
Defined.

(** X17 at the value [debug]. *)
Lemma ParseFlags_level_round_trip_witness :
  (ParseFlags_level "debug").2 = false /\
  level_flag (ParseFlags_level "debug").1 = "debug".
Proof.
  assert (Hv : (ParseFlags_level "debug").2 = false) by reflexivity.
  split; [exact Hv |].
  exact (proj1 (proj2 ParseFlags_level_round_trip) "debug" Hv).
Defined.

(** X18 at a body of two bytes under the limit 4. *)
Lemma limited_read_is_a_prefix_witness :
  http.BodyFails (post "12") = false /\
  Z.of_nat (String.length (http.Body (post "12"))) <= 4 /\
  ReadAll_LimitReader (post "12") 4 = Some "12".
Proof.
  assert (Hf : http.BodyFails (post "12") = false) by reflexivity.
  assert (Hl : Z.of_nat (String.length (http.Body (post "12"))) <= 4)
    by (vm_compute; discriminate).
  split; [exact Hf |]. split; [exact Hl |].
  exact (proj2 (limited_read_is_a_prefix (post "12") 4) Hf Hl).
Defined.

(** X20 at a GET. *)
Lemma handler_checks_in_order_witness :
  let r := http.MkRequest "GET" "1" true in
  http.Method r <> http.MethodPost /\
  handler no_reply http.fresh r toy_proc
  = (http.Error http.fresh "Only POST requests are allowed"
       http.StatusMethodNotAllowed, toy_proc).
Proof.
  intros r.
  assert (Hm : http.Method r <> http.MethodPost) by (vm_compute; discriminate).
  split; [exact Hm |].
  exact (proj1 (handler_checks_in_order no_reply http.fresh r toy_proc) Hm).
Defined.

(** X21 on the toy process with its one slot taken. *)
Lemma handler_answers_503_when_queue_is_full_witness :
  let p := proc (toy_after [ARequest no_reply http.fresh (post "12")]) in
  0 <= maxScriptSize (scriptManager p) /\
  handler_script (post "34") p = Some "34" /\
  chan_full (jobQueue (scriptManager p)) /\
  http.sent_status (handler no_reply http.fresh (post "34") p).1
    = http.StatusServiceUnavailable.
Proof.
  intros p.
  assert (Hm : 0 <= maxScriptSize (scriptManager p)) by (vm_compute; discriminate).
  assert (Hb : handler_script (post "34") p = Some "34")
    by (vm_compute; reflexivity).
  assert (Hf : chan_full (jobQueue (scriptManager p))) by (vm_compute; lia).
  split; [exact Hm |]. split; [exact Hb |]. split; [exact Hf |].
  exact (proj1 (handler_answers_503_when_queue_is_full no_reply (post "34") p
                  "34" Hm Hb Hf)).
Defined.

